(** * doppelganger.accuracy: a shallow embedding and its verified properties

    The module [doppelganger/accuracy.py] scores a synthesised population
    against survey microdata (PUMS) and published marginal totals.  This
    development embeds the class [Accuracy]: the loader ([from_data_dir],
    [from_csvs]), the comparison table ([_comparison_dataframe]), the three
    error statistics and the batch runner [run_pumas].

    Modelling choices, in the order of the source:
    - exceptions are values of [exn], computations that may raise live in
      the error monad [result];
    - numbers are abstract ([Number]): the code is written once and read at
      two instances, [xreal] (exact arithmetic on the extended reals) and
      [float] (IEEE binary64, what numpy computes with);
    - a pandas frame read from CSV is a list of column names and rows of
      cells, a cell being a text label or a number (NaN = missing);
    - the module is Python 2 code ([dict.keys()] is a fresh list, which
      [_comparison_dataframe] edits in place); dictionaries are [gmap]s,
      iterated in the order of [map_to_list], and the [OrderedDict]s are
      association lists in insertion order;
    - printing and logging do not influence any returned value and are left
      out. *)

From Stdlib Require Import String List ZArith Reals Lra Lia Floats.
From stdpp Require Import base option list gmap strings.
Import ListNotations.

Local Open Scope string_scope.
Local Open Scope list_scope.

(** ** Exceptions and the error monad *)

Inductive exn : Set :=
| KeyError | ValueError | AttributeError | TypeError
| AssertionError | IndexError | IOError | AccuracyException.

Inductive result (A : Type) : Type :=
| Ok (a : A)
| Raise (e : exn).
Arguments Ok {A} a.
Arguments Raise {A} e.

Definition bind {A B} (m : result A) (k : A -> result B) : result B :=
  match m with
  | Ok a => k a
  | Raise e => Raise e
  end.

Notation "'let!' x ':=' m 'in' k" := (bind m (fun x => k))
  (at level 10, x name, m at level 100, k at level 200).

(** [for x in xs: acc = step(acc, x)], leaving at the first exception. *)
Fixpoint for_each {A S} (step : S -> A -> result S) (xs : list A) (s : S)
  : result S :=
  match xs with
  | [] => Ok s
  | x :: rest => let! s' := step s x in for_each step rest s'
  end.

(** Elementwise evaluation of a list of computations, left to right. *)
Fixpoint sequence {A} (ms : list (result A)) : result (list A) :=
  match ms with
  | [] => Ok []
  | m :: rest => let! a := m in let! r := sequence rest in Ok (a :: r)
  end.

(** ** Numbers

    The arithmetic numpy and pandas apply to the columns.  [nan] is the
    missing value, [isnan] recognises it. *)

Class Number (num : Type) : Type := {
  nan : num;
  isnan : num -> bool;
  zero : num;
  of_nat : nat -> num;
  add : num -> num -> num;
  sub : num -> num -> num;
  mul : num -> num -> num;
  div : num -> num -> num;
  absolute : num -> num;
  sqroot : num -> num
}.

(** ** OrderedDict: an association list in insertion order *)

Section OrderedDict.
Context {K V : Type} (eqb : K -> K -> bool).

(** [d[k] = v]: replace in place when the key exists, else append. *)
Fixpoint od_set (k : K) (v : V) (d : list (K * V)) : list (K * V) :=
  match d with
  | [] => [(k, v)]
  | (k', v') :: rest =>
      if eqb k k' then (k', v) :: rest else (k', v') :: od_set k v rest
  end.

Fixpoint od_get (k : K) (d : list (K * V)) : option V :=
  match d with
  | [] => None
  | (k', v') :: rest => if eqb k k' then Some v' else od_get k rest
  end.

End OrderedDict.

Definition key : Type := string * string.

Definition key_eqb (a b : key) : bool :=
  String.eqb (fst a) (fst b) && String.eqb (snd a) (snd b).

(** ** Frames, series and tables over a number type *)

Section Frames.
Context {num : Type} `{Number num}.

(** A cell of a frame read from CSV. *)
Inductive cell : Type :=
| Txt (s : string)
| Num (x : num).

Record DataFrame : Type := {
  columns : list string;
  rows : list (list cell)
}.

Definition isnull (c : cell) : bool :=
  match c with
  | Txt _ => false
  | Num x => isnan x
  end.

Fixpoint position (name : string) (names : list string) : option nat :=
  match names with
  | [] => None
  | n :: rest =>
      if String.eqb name n then Some 0%nat
      else option_map S (position name rest)
  end.

(** The column at position [i]; a row too short has missing cells there. *)
Definition column_at (i : nat) (df : DataFrame) : list cell :=
  map (fun r => nth i r (Num nan)) (rows df).

(** [df[name]] *)
Definition getitem (df : DataFrame) (name : string) : result (list cell) :=
  match position name (columns df) with
  | Some i => Ok (column_at i df)
  | None => Raise KeyError
  end.

(** [df.name] *)
Definition getattr (df : DataFrame) (name : string) : result (list cell) :=
  match position name (columns df) with
  | Some i => Ok (column_at i df)
  | None => Raise AttributeError
  end.

(** [series == label], elementwise. *)
Definition eq_label (s : list cell) (label : string) : list bool :=
  map (fun c => match c with
                | Txt t => String.eqb t label
                | Num _ => false
                end) s.

Fixpoint keep {A} (mask : list bool) (xs : list A) : list A :=
  match mask, xs with
  | b :: mask', x :: xs' => if b then x :: keep mask' xs' else keep mask' xs'
  | _, _ => []
  end.

(** [df[mask]]: the rows where the mask holds. *)
Definition select (df : DataFrame) (mask : list bool) : DataFrame :=
  {| columns := columns df; rows := keep mask (rows df) |}.

(** [df.count()[0]]: [count] gives the number of non-missing cells of each
    column, and the integer subscript on a series labelled by column names
    is positional: the first column's count. *)
Definition count_0 (df : DataFrame) : result nat :=
  match columns df with
  | [] => Raise IndexError
  | _ :: _ =>
      Ok (length (List.filter (fun c => negb (isnull c)) (column_at 0 df)))
  end.

(** Reduction by addition from the first element, as numpy's [add.reduce]. *)
Definition reduce_add (xs : list num) : num :=
  match xs with
  | [] => zero
  | x :: rest => fold_left add rest x
  end.

(** pandas' [nansum]: missing values count as zero.  (Before pandas 0.22
    the sum of a non-empty series with no value present was itself
    missing; the properties below do not depend on that case.) *)
Definition nansum (xs : list num) : num :=
  reduce_add (map (fun x => if isnan x then zero else x) xs).

Definition as_number (c : cell) : result num :=
  match c with
  | Num x => Ok x
  | Txt _ => Raise TypeError
  end.

(** [series.sum()] on a column of a frame; a text entry gives no number. *)
Definition series_sum (s : list cell) : result num :=
  let! xs := sequence (map as_number s) in Ok (nansum xs).

(** [np.mean(series)] dispatches to [Series.mean], which skips the missing
    values and is missing itself when nothing is left. *)
Definition mean (xs : list num) : num :=
  let n := length (List.filter (fun x => negb (isnan x)) xs) in
  match n with
  | O => nan
  | S _ => div (nansum xs) (of_nat n)
  end.

(** A frame built by the program: column names and labelled rows. *)
Record Table (K : Type) : Type := {
  t_columns : list string;
  t_rows : list (K * list num)
}.
Arguments t_columns {K} t.
Arguments t_rows {K} t.

Definition pad (n : nat) (r : list num) : list num :=
  r ++ repeat nan (n - length r).

(** [pd.DataFrame(d.values(), index=d.keys(), columns=names)] for a list of
    rows: the rows are padded with missing values to the longest one, whose
    length must be the number of names; no row at all gives the empty
    frame. *)
Definition pd_DataFrame {K} (d : list (K * list num)) (names : list string)
  : result (Table K) :=
  match d with
  | [] => Ok {| t_columns := names; t_rows := [] |}
  | _ :: _ =>
      let width := list_max (map (fun kv => length (snd kv)) d) in
      if Nat.eqb width (length names)
      then Ok {| t_columns := names;
                 t_rows := map (fun kv => (fst kv, pad width (snd kv))) d |}
      else Raise AssertionError
  end.

(** [table.name]: a column of a table. *)
Definition series {K} (t : Table K) (name : string) : result (list num) :=
  match position name (t_columns t) with
  | Some i => Ok (map (fun kv => nth i (snd kv) nan) (t_rows t))
  | None => Raise AttributeError
  end.

End Frames.

Arguments cell num : clear implicits.
Arguments DataFrame num : clear implicits.
Arguments Table num K : clear implicits.
Arguments t_columns {num K} t.
Arguments t_rows {num K} t.

(** ** The class [Accuracy] *)

(** The argument [marginal_variables]: a list of names, or a bare string
    (the docstring allows ['all'] as well as [['all']]). *)
Inductive variable_list : Type :=
| Names (l : list string)
| Name (s : string).

Section Accuracy.
Context {num : Type} `{Number num}.

(** [marginals.CONTROLS], defined outside this module: each marginal
    variable with the keys (bin labels) of its dictionary. *)
Variable CONTROLS : gmap string (gset string).

(** [pd.read_csv] on the file system the program runs against. *)
Variable read_csv : string -> result (DataFrame num).

Record Accuracy : Type := {
  person_pums : DataFrame num;
  household_pums : DataFrame num;
  marginals : DataFrame num;
  generated_persons : DataFrame num;
  generated_households : DataFrame num
}.

(** ['state_{}_puma_{}_{}'.format(state, puma, suffix)] *)
Definition FILE_PATTERN (state puma suffix : string) : string :=
  "state_" ++ state ++ "_puma_" ++ puma ++ "_" ++ suffix.

(** An [IOError] of a read is logged and raised again as [IOError]; any
    other exception passes through: in both cases the exception of the
    first failing read leaves the function. *)
Definition from_csvs (state puma : string)
  (person_pums_filepath household_pums_filepath marginals_filepath
   generated_persons_filepath generated_households_filepath : string)
  : result Accuracy :=
  let! df_person := read_csv person_pums_filepath in
  let! df_household := read_csv household_pums_filepath in
  let! df_marginal := read_csv marginals_filepath in
  let! df_gen_persons := read_csv generated_persons_filepath in
  let! df_gen_households := read_csv generated_households_filepath in
  Ok {| person_pums := df_person;
        household_pums := df_household;
        marginals := df_marginal;
        generated_persons := df_gen_persons;
        generated_households := df_gen_households |}.

Definition from_data_dir (state puma data_dir : string) : result Accuracy :=
  from_csvs state puma
    (data_dir ++ "/" ++ FILE_PATTERN state puma "persons_pums.csv")
    (data_dir ++ "/" ++ FILE_PATTERN state puma "households_pums.csv")
    (data_dir ++ "/" ++ FILE_PATTERN state puma "marginals.csv")
    (data_dir ++ "/" ++ FILE_PATTERN state puma "people.csv")
    (data_dir ++ "/" ++ FILE_PATTERN state puma "households.csv").

(** *** [_comparison_dataframe] *)

Definition is_all (marginal_variables : variable_list) : bool :=
  match marginal_variables with
  | Name s => String.eqb s "all"
  | Names [s] => String.eqb s "all"
  | Names _ => false
  end.

(** What [for var in marginal_variables] visits: the elements of a list,
    the characters of a string. *)
Definition iterate (marginal_variables : variable_list) : list string :=
  match marginal_variables with
  | Names l => l
  | Name s => map (fun c => String c EmptyString) (list_ascii_of_string s)
  end.

(** A variable the call asks for: any one under ['all'], else one the
    argument lists. *)
Definition is_requested (marginal_variables : variable_list) (v : string)
  : Prop :=
  is_all marginal_variables = true \/ v ∈ iterate marginal_variables.

(** Lines 89-95: the dictionary [variables]. *)
Definition requested (marginal_variables : variable_list)
  : result (gmap string (list string)) :=
  if is_all marginal_variables then
    Ok (fold_left (fun variables cb => <[cb.1 := elements cb.2]> variables)
                  (map_to_list CONTROLS) ∅)
  else
    for_each (fun variables var =>
                match CONTROLS !! var with
                | Some bin_dict => Ok (<[var := elements bin_dict]> variables)
                | None => Raise KeyError
                end)
             (iterate marginal_variables) ∅.

(** [list.remove(x)]: drops the first occurrence, [ValueError] without one. *)
Fixpoint list_remove (x : string) (l : list string) : result (list string) :=
  match l with
  | [] => Raise ValueError
  | y :: rest =>
      if String.eqb x y then Ok rest
      else let! r := list_remove x rest in Ok (y :: r)
  end.

(** Lines 97-99. *)
Definition drop_count (variables : gmap string (list string))
  : result (gmap string (list string)) :=
  match variables !! "num_people" with
  | Some bins =>
      let! bins' := list_remove "count" bins in
      Ok (<["num_people" := bins']> variables)
  | None => Ok variables
  end.

(** [survey[survey[variable] == bin].<weight>.sum()] *)
Definition weight_sum (survey : DataFrame num) (variable bin weight : string)
  : result num :=
  let! col := getitem survey variable in
  let! w := getattr (select survey (eq_label col bin)) weight in
  series_sum w.

(** [generated[generated[variable] == bin].count()[0]] *)
Definition matching_count (generated : DataFrame num) (variable bin : string)
  : result num :=
  let! col := getitem generated variable in
  let! n := count_0 (select generated (eq_label col bin)) in
  Ok (of_nat n).

(** Lines 104-125: the list stored under [(variable, bin)]. *)
Definition row_of (self : Accuracy) (variable bin : string)
  : result (list num) :=
  let! counts :=
    if String.eqb variable "age" then
      let! s := weight_sum (person_pums self) variable bin "person_weight" in
      let! g := matching_count (generated_persons self) variable bin in
      Ok [s; g]
    else if String.eqb variable "num_people" then
      let! s := weight_sum (household_pums self) variable bin
                           "household_weight" in
      let! g := matching_count (generated_households self) variable bin in
      Ok [s; g]
    else if String.eqb variable "num_vehicles" then
      let! s := weight_sum (household_pums self) variable bin
                           "household_weight" in
      let! g := matching_count (generated_households self) variable bin in
      Ok [s; g]
    else Ok [] in
  let! col := getitem (marginals self) (variable ++ "_" ++ bin) in
  let! m := series_sum col in
  Ok (counts ++ [m]).

(** Lines 101-127: the two nested loops filling the ordered dictionary. *)
Definition fill_bins (self : Accuracy) (variable : string)
  (bins : list string) (d : list (key * list num))
  : result (list (key * list num)) :=
  for_each (fun d bin =>
              let! r := row_of self variable bin in
              Ok (od_set key_eqb (variable, bin) r d))
           bins d.

Definition fill (self : Accuracy) (items : list (string * list string))
  : result (list (key * list num)) :=
  for_each (fun d vb => fill_bins self vb.1 vb.2 d) items [].

Definition _comparison_dataframe (self : Accuracy)
  (marginal_variables : variable_list) : result (Table num key) :=
  let! variables := requested marginal_variables in
  let! variables := drop_count variables in
  let! d := fill self (map_to_list variables) in
  pd_DataFrame d ["pums"; "gen"; "marginal"].

(** *** The error statistics *)

Definition square (x : num) : num := mul x x.

(** [np.sqrt(np.square(a - b))], elementwise. *)
Definition root_squared (a b : list num) : list num :=
  map (fun x => sqroot (square x)) (zip_with sub a b).

(** [np.abs(a - b) / ((a + b) / 2)] on one pair of entries. *)
Definition pct_error (a b : num) : num :=
  div (absolute (sub a b)) (div (add a b) (of_nat 2)).

(** Lines 137-140, on the comparison table. *)
Definition root_mean_squared_error_of (df : Table num key)
  : result (num * num) :=
  let! pums := series df "pums" in
  let! marginal := series df "marginal" in
  let! gen := series df "gen" in
  Ok (sqroot (mean (map square (zip_with sub pums marginal))),
      sqroot (mean (map square (zip_with sub gen marginal)))).

Definition root_mean_squared_error (self : Accuracy)
  (variables : variable_list) : result (num * num) :=
  let! df := _comparison_dataframe self variables in
  root_mean_squared_error_of df.

(** Lines 147-148: the two per-row series ([baseline], [doppel]). *)
Definition mean_root_squared_error_series (df : Table num key)
  : result (list num * list num) :=
  let! pums := series df "pums" in
  let! marginal := series df "marginal" in
  let! gen := series df "gen" in
  Ok (root_squared pums marginal, root_squared gen marginal).

Definition mean_root_squared_error_of (df : Table num key)
  : result (num * num) :=
  let! bd := mean_root_squared_error_series df in
  Ok (mean bd.1, mean bd.2).

Definition mean_root_squared_error (self : Accuracy)
  (variables : variable_list) (verbose : bool) : result (num * num) :=
  let! df := _comparison_dataframe self variables in
  mean_root_squared_error_of df.

(** Lines 160-161: the two per-row series ([baseline], [doppel]). *)
Definition mean_absolute_pct_error_series (df : Table num key)
  : result (list num * list num) :=
  let! pums := series df "pums" in
  let! marginal := series df "marginal" in
  let! gen := series df "gen" in
  Ok (zip_with pct_error pums marginal, zip_with pct_error gen marginal).

Definition mean_absolute_pct_error_of (df : Table num key)
  : result (num * num) :=
  let! bd := mean_absolute_pct_error_series df in
  Ok (mean bd.1, mean bd.2).

Definition mean_absolute_pct_error (self : Accuracy)
  (variables : variable_list) (verbose : bool) : result (num * num) :=
  let! df := _comparison_dataframe self variables in
  mean_absolute_pct_error_of df.

(** *** [run_pumas] *)

(** The pairs the two nested loops visit, in order. *)
Definition sub_areas (state_puma : gmap string (list string)) : list key :=
  flat_map (fun sp => map (fun puma => (sp.1, puma)) sp.2)
           (map_to_list state_puma).

(** Lines 189-202: the body of the inner loop. *)
Definition run_one (data_dir : string) (variables : variable_list)
  (statistic : string) (verbose : bool)
  (d_result : list (key * list num)) (sp : key)
  : result (list (key * list num)) :=
  let! accuracy := from_data_dir sp.1 sp.2 data_dir in
  let! r :=
    if String.eqb statistic "mean_absolute_pct_error" then
      mean_absolute_pct_error accuracy variables verbose
    else if String.eqb statistic "mean_root_squared_error" then
      mean_root_squared_error accuracy variables verbose
    else if String.eqb statistic "root_mean_squared_error" then
      root_mean_squared_error accuracy variables
    else Raise AccuracyException in
  Ok (od_set key_eqb sp [r.1; r.2] d_result).

Definition run_pumas (state_puma : gmap string (list string))
  (data_dir : string) (variables : variable_list) (statistic : string)
  (verbose : bool) : result (Table num key) :=
  let! d_result :=
    for_each (run_one data_dir variables statistic verbose)
             (sub_areas state_puma) [] in
  pd_DataFrame d_result ["marginal-pums"; "marginal-doppelganger"].

End Accuracy.

Arguments Accuracy num : clear implicits.

(** ** Exact arithmetic: the extended reals

    Real numbers with the two infinities and the undefined value, computed
    with as IEEE arithmetic does apart from rounding, overflow and the sign
    of zero. *)

Inductive xreal : Type :=
| Fin (r : R)
| PInf
| NInf
| NaN.

Module XReal.
Local Open Scope R_scope.

(** The infinity a nonzero quantity of the given sign tends to. *)
Definition signed_inf (r : R) : xreal :=
  match total_order_T r 0 with
  | inleft (left _) => NInf
  | inleft (right _) => NaN
  | inright _ => PInf
  end.

Definition is_nan (x : xreal) : bool :=
  match x with
  | NaN => true
  | _ => false
  end.

Definition neg (x : xreal) : xreal :=
  match x with
  | Fin r => Fin (- r)
  | PInf => NInf
  | NInf => PInf
  | NaN => NaN
  end.

Definition plus (x y : xreal) : xreal :=
  match x, y with
  | NaN, _ | _, NaN => NaN
  | Fin a, Fin b => Fin (a + b)
  | PInf, NInf | NInf, PInf => NaN
  | PInf, _ | _, PInf => PInf
  | NInf, _ | _, NInf => NInf
  end.

Definition minus (x y : xreal) : xreal := plus x (neg y).

Definition times (x y : xreal) : xreal :=
  match x, y with
  | NaN, _ | _, NaN => NaN
  | Fin a, Fin b => Fin (a * b)
  | Fin a, PInf | PInf, Fin a => signed_inf a
  | Fin a, NInf | NInf, Fin a => signed_inf (- a)
  | PInf, PInf | NInf, NInf => PInf
  | PInf, NInf | NInf, PInf => NInf
  end.

Definition divide (x y : xreal) : xreal :=
  match x, y with
  | NaN, _ | _, NaN => NaN
  | Fin a, Fin b => if Req_EM_T b 0 then signed_inf a else Fin (a / b)
  | Fin _, (PInf | NInf) => Fin 0
  | PInf, Fin b => if Rlt_dec b 0 then NInf else PInf
  | NInf, Fin b => if Rlt_dec b 0 then PInf else NInf
  | (PInf | NInf), (PInf | NInf) => NaN
  end.

Definition magnitude (x : xreal) : xreal :=
  match x with
  | Fin r => Fin (Rabs r)
  | PInf | NInf => PInf
  | NaN => NaN
  end.

Definition root (x : xreal) : xreal :=
  match x with
  | Fin r => if Rlt_dec r 0 then NaN else Fin (R_sqrt.sqrt r)
  | PInf => PInf
  | NInf | NaN => NaN
  end.

End XReal.

#[export] Instance xreal_number : Number xreal := {|
  nan := NaN;
  isnan := XReal.is_nan;
  zero := Fin 0%R;
  of_nat := fun n => Fin (INR n);
  add := XReal.plus;
  sub := XReal.minus;
  mul := XReal.times;
  div := XReal.divide;
  absolute := XReal.magnitude;
  sqroot := XReal.root
|}.

(** ** IEEE binary64: what numpy computes with *)

#[export] Instance float_number : Number float := {|
  nan := PrimFloat.nan;
  isnan := PrimFloat.is_nan;
  zero := 0%float;
  of_nat := fun n => PrimFloat.of_uint63 (Uint63.of_Z (Z.of_nat n));
  add := PrimFloat.add;
  sub := PrimFloat.sub;
  mul := PrimFloat.mul;
  div := PrimFloat.div;
  absolute := PrimFloat.abs;
  sqroot := PrimFloat.sqrt
|}.

(** A binary64 value is a zero (of either sign), an infinity (of either
    sign), by its IEEE class. *)
Definition is_zero64 (x : float) : Prop := exists s, Prim2SF x = S754_zero s.
Definition is_infinite64 (x : float) : Prop :=
  exists s, Prim2SF x = S754_infinity s.

(** ** The quantities the specification speaks of *)

Section Specification.
Local Open Scope R_scope.

Definition Rsum (xs : list R) : R := fold_right Rplus 0 xs.

(** The arithmetic mean of a list of reals. *)
Definition Rmean (xs : list R) : R := Rsum xs / INR (length xs).

(** A row of a comparison table with all three counts present. *)
Record counts : Type := {
  survey_count : R;
  generated_count : R;
  marginal_count : R
}.

(** The comparison table holding the given rows. *)
Definition comparison_table (rws : list (key * counts)) : Table xreal key :=
  {| t_columns := ["pums"; "gen"; "marginal"];
     t_rows := map (fun kc => (kc.1, [Fin (survey_count kc.2);
                                      Fin (generated_count kc.2);
                                      Fin (marginal_count kc.2)])) rws |}.

(** [sqrt(mean_over_rows((x - marginal)^2))] *)
Definition rmse (x : counts -> R) (rws : list (key * counts)) : R :=
  R_sqrt.sqrt (Rmean (map (fun kc => (x kc.2 - marginal_count kc.2) ^ 2) rws)).

(** [mean_over_rows(|x - marginal|)] *)
Definition mean_abs_diff (x : counts -> R) (rws : list (key * counts)) : R :=
  Rmean (map (fun kc => Rabs (x kc.2 - marginal_count kc.2)) rws).

End Specification.

(** The numerator of a percentage error that is a number other than zero. *)
Definition is_nonzero64 (x : float) : Prop :=
  match Prim2SF x with
  | S754_finite _ _ _ | S754_infinity _ => True
  | S754_zero _ | S754_nan => False
  end.

(** ** Records of a frame, as the specification counts them *)

Section Records.
Context {num : Type} `{Number num}.

(** The record [r] of [df] has the text [label] in its field [name]. *)
Definition has_label (df : DataFrame num) (name label : string)
  (r : list (cell num)) : bool :=
  match position name (columns df) with
  | Some i =>
      match nth i r (Num nan) with
      | Txt t => String.eqb t label
      | Num _ => false
      end
  | None => false
  end.

Definition matching_records (df : DataFrame num) (name label : string)
  : list (list (cell num)) :=
  List.filter (has_label df name label) (rows df).

(** The sum of the column [weight] over the records whose field
    [variable] is [bin]. *)
Definition weighted_total (df : DataFrame num) (variable bin weight : string)
  : result num :=
  match position weight (columns df) with
  | Some i =>
      series_sum (map (fun r => nth i r (Num nan))
                      (matching_records df variable bin))
  | None => Raise AttributeError
  end.

(** The survey frame, its weight column and the generated frame the
    builder reads for a variable. *)
Definition survey_of (self : Accuracy num) (variable : string)
  : DataFrame num :=
  if String.eqb variable "age" then person_pums self else household_pums self.

Definition weight_of (variable : string) : string :=
  if String.eqb variable "age" then "person_weight" else "household_weight".

Definition generated_of (self : Accuracy num) (variable : string)
  : DataFrame num :=
  if String.eqb variable "age" then generated_persons self
  else generated_households self.

End Records.

(** ** A small data set in binary64 *)

Definition ex_controls : gmap string (gset string) :=
  <["age" := ({["0-17"; "18-34"]} : gset string)]>
  (<["num_people" := ({["count"; "1"; "2"]} : gset string)]>
  (<["tenure" := ({["own"]} : gset string)]> ∅)).

Definition ex_persons : DataFrame float :=
  {| columns := ["serial"; "age"; "person_weight"];
     rows := [[Num 1%float; Txt "0-17"; Num 10%float];
              [Num 2%float; Txt "0-17"; Num 5.5%float];
              [Num 3%float; Txt "18-34"; Num 7%float]] |}.

(** Two generated persons aged 0-17; the first has no entry in the first
    column of the file. *)
Definition ex_gen_persons : DataFrame float :=
  {| columns := ["id"; "age"];
     rows := [[Num PrimFloat.nan; Txt "0-17"];
              [Num 1%float; Txt "0-17"]] |}.

Definition ex_households : DataFrame float :=
  {| columns := ["num_people"; "household_weight"];
     rows := [[Txt "1"; Num 3%float];
              [Txt "2"; Num 4%float];
              [Txt "1"; Num 2%float]] |}.

Definition ex_marginals : DataFrame float :=
  {| columns := ["age_0-17"; "age_18-34"; "num_people_1"; "num_people_2";
                 "tenure_own"];
     rows := [[Num 20%float; Num 8%float; Num 5%float; Num 4%float;
               Num 7%float]] |}.

Definition ex_accuracy : Accuracy float :=
  {| person_pums := ex_persons;
     household_pums := ex_households;
     marginals := ex_marginals;
     generated_persons := ex_gen_persons;
     generated_households := ex_households |}.

(** The table [_comparison_dataframe] builds from it for ['all']. *)
Definition ex_table : Table float key :=
  {| t_columns := ["pums"; "gen"; "marginal"];
     t_rows :=
       [("age", "18-34", [7%float; 0%float; 8%float]);
        ("age", "0-17", [15.5%float; 1%float; 20%float]);
        ("num_people", "1", [5%float; 2%float; 5%float]);
        ("num_people", "2", [4%float; 1%float; 4%float]);
        ("tenure", "own", [7%float; PrimFloat.nan; PrimFloat.nan])] |}.

(** A specification with a bin the marginal totals above have no column
    for. *)
Definition ex_controls_wide : gmap string (gset string) :=
  {[ "age" := ({["0-17"; "18-34"; "35-64"]} : gset string) ]}.

(** A data directory holding the five files of state 20, PUMA 00500. *)
Definition ex_read_csv (path : string) : result (DataFrame float) :=
  if String.eqb path "data/state_20_puma_00500_persons_pums.csv"
  then Ok ex_persons
  else if String.eqb path "data/state_20_puma_00500_households_pums.csv"
  then Ok ex_households
  else if String.eqb path "data/state_20_puma_00500_marginals.csv"
  then Ok ex_marginals
  else if String.eqb path "data/state_20_puma_00500_people.csv"
  then Ok ex_gen_persons
  else if String.eqb path "data/state_20_puma_00500_households.csv"
  then Ok ex_households
  else Raise IOError.

Definition ex_state_puma : gmap string (list string) :=
  {[ "20" := ["00500"] ]}.


(** ** The batch runner, read per sub-area *)

Section Batch.
Context {num : Type} `{Number num}.
Variable CONTROLS : gmap string (gset string).

(** Lines 193-202: the statistic the name selects. *)
Definition chosen_statistic (statistic : string) (accuracy : Accuracy num)
  (variables : variable_list) (verbose : bool) : result (num * num) :=
  if String.eqb statistic "mean_absolute_pct_error" then
    mean_absolute_pct_error CONTROLS accuracy variables verbose
  else if String.eqb statistic "mean_root_squared_error" then
    mean_root_squared_error CONTROLS accuracy variables verbose
  else if String.eqb statistic "root_mean_squared_error" then
    root_mean_squared_error CONTROLS accuracy variables
  else Raise AccuracyException.

(** Lines 46-50: the five files [from_data_dir] names for a sub-area. *)
Definition data_files (state puma data_dir : string) : list string :=
  map (fun suffix =>
         (data_dir ++ "/" ++ FILE_PATTERN state puma suffix)%string)
      ["persons_pums.csv"; "households_pums.csv"; "marginals.csv";
       "people.csv"; "households.csv"].

End Batch.

(** ** Tables with incomplete rows, over the extended reals *)

Section Gaps.
Local Open Scope R_scope.

(** The entries of a row: the three counts of a complete row, or the
    single value of an incomplete one padded with missing entries. *)
Definition table_row (e : counts + R) : list xreal :=
  match e with
  | inl c => [Fin (survey_count c); Fin (generated_count c);
              Fin (marginal_count c)]
  | inr m => [Fin m; NaN; NaN]
  end.

Definition gapped_table (es : list (key * (counts + R))) : Table xreal key :=
  {| t_columns := ["pums"; "gen"; "marginal"];
     t_rows := map (fun ke => (ke.1, table_row ke.2)) es |}.

Fixpoint complete_rows (es : list (key * (counts + R)))
  : list (key * counts) :=
  match es with
  | [] => []
  | (k, inl c) :: rest => (k, c) :: complete_rows rest
  | (_, inr _) :: rest => complete_rows rest
  end.

End Gaps.

(** ** Non-negative data, over the extended reals *)

Section Signs.
Local Open Scope R_scope.

(** A value that is missing or not below zero. *)
Definition nonneg (x : xreal) : Prop :=
  match x with
  | Fin r => 0 <= r
  | PInf | NaN => True
  | NInf => False
  end.

Definition nonneg_cell (c : cell xreal) : Prop :=
  match c with
  | Num x => nonneg x
  | Txt _ => True
  end.

(** Every number of the frame is missing or not below zero. *)
Definition nonneg_frame (df : DataFrame xreal) : Prop :=
  Forall (Forall nonneg_cell) (rows df).

End Signs.

(** ** Further data for the examples *)

(** A specification whose "num_people" has no "count" bin. *)
Definition ex_controls_nocount : gmap string (gset string) :=
  {[ "num_people" := ({["1"; "2"]} : gset string) ]}.

(** A mapping naming a sub-area the example directory has no files for. *)
Definition ex_state_puma_two : gmap string (list string) :=
  {[ "20" := ["00500"; "00602"] ]}.

(** The example directory with one more, unrelated file. *)
Definition ex_read_csv_more (path : string) : result (DataFrame float) :=
  if String.eqb path "data/notes.csv" then Ok ex_households
  else ex_read_csv path.

(** The summary of the example directory under [mean_root_squared_error]
    for the variable "age". *)
Definition ex_summary : Table float key :=
  {| t_columns := ["marginal-pums"; "marginal-doppelganger"];
     t_rows := [("20", "00500", [2.75%float; 13.5%float])] |}.

(** Two comparison rows over the reals. *)
Definition ex_counts_two : list (key * counts) :=
  [(("age", "0-17"),
    {| survey_count := 80; generated_count := 90; marginal_count := 100 |});
   (("age", "18-34"),
    {| survey_count := 55; generated_count := 50; marginal_count := 50 |})].

(** One person, one generated person and one marginal total, over the
    reals. *)
Definition ex_controls_age : gmap string (gset string) :=
  {[ "age" := ({["0-17"]} : gset string) ]}.

Definition ex_accuracy_exact : Accuracy xreal :=
  {| person_pums :=
       {| columns := ["age"; "person_weight"];
          rows := [[Txt "0-17"; Num (Fin 2)]] |};
     household_pums := {| columns := []; rows := [] |};
     marginals :=
       {| columns := ["age_0-17"]; rows := [[Num (Fin 3)]] |};
     generated_persons :=
       {| columns := ["age"]; rows := [[Txt "0-17"]] |};
     generated_households := {| columns := []; rows := [] |} |}.

Definition ex_table_exact : Table xreal key :=
  {| t_columns := ["pums"; "gen"; "marginal"];
     t_rows := [("age", "0-17", [Fin 2; Fin (INR 1); Fin 3])] |}.

(** * Properties *)

(** ** The error monad and the ordered dictionary *)
Lemma bind_Ok {A B} (m : result A) (k : A -> result B) (b : B) :
  bind m k = Ok b -> exists a, m = Ok a /\ k a = Ok b.
Proof. destruct m as [a|e]; simpl; [eauto | discriminate]. Qed.

Ltac inv_bind H :=
  let a := fresh "a" in
  let Ha := fresh "Ha" in
  apply bind_Ok in H; destruct H as (a & Ha & H).

Lemma key_eqb_eq (a b : key) : key_eqb a b = true <-> a = b.
Proof.
  destruct a as [a1 a2], b as [b1 b2]. unfold key_eqb. simpl.
  rewrite andb_true_iff, !String.eqb_eq. split.
  - intros [-> ->]. reflexivity.
  - intros [= -> ->]. auto.
Qed.

Lemma key_eqb_refl (a : key) : key_eqb a a = true.
Proof. apply key_eqb_eq. reflexivity. Qed.

Section OrderedDictFacts.
Context {V : Type}.
Implicit Types (d : list (key * V)) (k : key) (v : V).

Lemma od_set_keys k v d k' :
  k' ∈ (od_set key_eqb k v d).*1 <-> k' = k \/ k' ∈ d.*1.
Proof.
  induction d as [|[k0 v0] d IH]; simpl.
  - rewrite list_elem_of_singleton, elem_of_nil. tauto.
  - destruct (key_eqb k k0) eqn:E; simpl.
    + apply key_eqb_eq in E. subst k0. rewrite !elem_of_cons. tauto.
    + rewrite !elem_of_cons, IH. tauto.
Qed.

Lemma od_get_set k v d k' :
  od_get key_eqb k' (od_set key_eqb k v d) =
  if key_eqb k' k then Some v else od_get key_eqb k' d.
Proof.
  induction d as [|[k0 v0] d IH]; simpl.
  - reflexivity.
  - destruct (key_eqb k k0) eqn:E; simpl.
    + apply key_eqb_eq in E. subst k0.
      destruct (key_eqb k' k); reflexivity.
    + rewrite IH. destruct (key_eqb k' k0) eqn:E0; [|reflexivity].
      apply key_eqb_eq in E0. subst k0.
      destruct (key_eqb k' k) eqn:E1; [|reflexivity].
      apply key_eqb_eq in E1. subst k'. rewrite key_eqb_refl in E. discriminate.
Qed.

Lemma od_get_map (f : V -> V) k d :
  od_get key_eqb k (map (fun kv => (kv.1, f kv.2)) d) =
  f <$> od_get key_eqb k d.
Proof.
  induction d as [|[k0 v0] d IH]; simpl; [reflexivity|].
  destruct (key_eqb k k0); [reflexivity | apply IH].
Qed.

Lemma od_keys_map (f : V -> V) d :
  (map (fun kv => (kv.1, f kv.2)) d).*1 = d.*1.
Proof. induction d as [|[? ?] ? IH]; simpl; [done|]. f_equal. exact IH. Qed.

End OrderedDictFacts.

(** ** The working dictionary and the rows of the table *)

Section BuilderFacts.
Context {num : Type} `{Number num}.
Variable CONTROLS : gmap string (gset string).
Implicit Types (self : Accuracy num) (d : list (key * list num)).

Lemma fill_bins_keys self v bins d d' :
  fill_bins self v bins d = Ok d' ->
  forall k, k ∈ d'.*1 <-> k ∈ d.*1 \/ exists b, b ∈ bins /\ k = (v, b).
Proof.
  unfold fill_bins. revert d.
  induction bins as [|b bins IH]; simpl; intros d Hf k.
  - injection Hf as <-. split; [auto|]. intros [?|(b & Hb & _)]; [done|].
    apply elem_of_nil in Hb. done.
  - inv_bind Hf. inv_bind Ha. injection Ha as <-.
    rewrite (IH _ Hf k), od_set_keys. split.
    + intros [[->|?]|(b' & Hb' & ->)]; eauto.
      * right. exists b. split; [left|done].
      * right. exists b'. split; [by right|done].
    + intros [?|(b' & Hb' & ->)]; [auto|].
      apply elem_of_cons in Hb' as [->|?]; eauto.
Qed.

Lemma fill_bins_rows self v bins d d' :
  fill_bins self v bins d = Ok d' ->
  forall k r, od_get key_eqb k d' = Some r ->
    od_get key_eqb k d = Some r \/
    exists b, b ∈ bins /\ k = (v, b) /\ row_of self v b = Ok r.
Proof.
  unfold fill_bins. revert d.
  induction bins as [|b bins IH]; simpl; intros d Hf k r Hr.
  - injection Hf as <-. auto.
  - inv_bind Hf. inv_bind Ha. injection Ha as <-.
    destruct (IH _ Hf k r Hr) as [Hg|(b' & Hb' & -> & Hrow)].
    + rewrite od_get_set in Hg. destruct (key_eqb k (v, b)) eqn:E; [|auto].
      apply key_eqb_eq in E. injection Hg as ->. right. exists b.
      split; [left|done].
    + right. exists b'. split; [by right|done].
Qed.

Lemma fill_keys self items d d' :
  for_each (fun d vb => fill_bins self vb.1 vb.2 d) items d = Ok d' ->
  forall k, k ∈ d'.*1 <->
    k ∈ d.*1 \/ exists bins, (k.1, bins) ∈ items /\ k.2 ∈ bins.
Proof.
  revert d. induction items as [|[v bins] items IH]; simpl; intros d Hf k.
  - injection Hf as <-. split; [auto|]. intros [?|(b & Hb & _)]; [done|].
    apply elem_of_nil in Hb. done.
  - inv_bind Hf. rewrite (IH _ Hf k), (fill_bins_keys _ _ _ _ _ Ha k). split.
    + intros [[?|(b & Hb & ->)]|(bs & Hbs & Hk)]; eauto.
      * right. exists bins. split; [left|done].
      * right. exists bs. split; [by right|done].
    + intros [?|(bs & Hbs & Hk)]; [auto|].
      apply elem_of_cons in Hbs as [[= E1 E2]|?].
      * subst. left. right. exists k.2. split; [done|]. by destruct k.
      * right. eauto.
Qed.

Lemma fill_rows self items d d' :
  for_each (fun d vb => fill_bins self vb.1 vb.2 d) items d = Ok d' ->
  forall k r, od_get key_eqb k d' = Some r ->
    od_get key_eqb k d = Some r \/ row_of self k.1 k.2 = Ok r.
Proof.
  revert d. induction items as [|[v bins] items IH]; simpl; intros d Hf k r Hr.
  - injection Hf as <-. auto.
  - inv_bind Hf. destruct (IH _ Hf k r Hr) as [Hg|?]; [|auto].
    destruct (fill_bins_rows _ _ _ _ _ Ha k r Hg) as [?|(b & _ & -> & ?)]; auto.
Qed.

Lemma pd_DataFrame_Ok {K} (d : list (K * list num)) names t :
  pd_DataFrame d names = Ok t ->
  t_columns t = names /\
  t_rows t = map (fun kv => (kv.1, pad (length names) kv.2)) d.
Proof.
  unfold pd_DataFrame. destruct d as [|kv d].
  - intros [= <-]. auto.
  - destruct (Nat.eqb _ _) eqn:E; [|discriminate].
    apply Nat.eqb_eq in E. intros [= <-]. simpl. rewrite <- E. auto.
Qed.


Lemma controls_fold_lookup (l : list (string * gset string))
  (acc : gmap string (list string)) v bins :
  NoDup l.*1 ->
  (fold_left (fun variables cb => <[cb.1 := elements cb.2]> variables) l acc)
    !! v = Some bins <->
  (exists s, (v, s) ∈ l /\ bins = elements s) \/
  ((v ∉ l.*1) /\ acc !! v = Some bins).
Proof.
  revert acc. induction l as [|[c s0] l IH]; simpl; intros acc Hnd.
  - split.
    + intros ?. right. split; [apply not_elem_of_nil|done].
    + intros [(s & Hs & _)|[_ ?]]; [by apply elem_of_nil in Hs|done].
  - apply NoDup_cons in Hnd as [Hc Hnd]. rewrite (IH _ Hnd). clear IH.
    rewrite not_elem_of_cons. split.
    + intros [(s & Hs & ->)|[Hv Hl]].
      * left. exists s. split; [by right|done].
      * destruct (decide (v = c)) as [->|Hne].
        -- rewrite lookup_insert_eq in Hl. injection Hl as <-.
           left. exists s0. split; [left|done].
        -- rewrite lookup_insert_ne in Hl by done. auto.
    + intros [(s & Hs & ->)|[[Hne Hv] Hl]].
      * apply elem_of_cons in Hs as [[= -> ->]|Hs].
        -- right. split; [done|]. by rewrite lookup_insert_eq.
        -- left. eauto.
      * right. split; [done|]. by rewrite lookup_insert_ne.
Qed.

Lemma requested_loop_lookup (l : list string)
  (acc vars : gmap string (list string)) :
  for_each (fun variables var =>
              match CONTROLS !! var with
              | Some bin_dict => Ok (<[var := elements bin_dict]> variables)
              | None => Raise KeyError
              end) l acc = Ok vars ->
  forall v bins, vars !! v = Some bins <->
    (v ∈ l /\ exists s, CONTROLS !! v = Some s /\ bins = elements s) \/
    ((v ∉ l) /\ acc !! v = Some bins).
Proof.
  revert acc. induction l as [|x l IH]; simpl; intros acc Hf v bins.
  - injection Hf as <-. split.
    + intros ?. right. split; [apply not_elem_of_nil|done].
    + intros [[Hv _]|[_ ?]]; [by apply elem_of_nil in Hv|done].
  - inv_bind Hf. destruct (CONTROLS !! x) as [sx|] eqn:Hx; [|discriminate].
    injection Ha as <-. rewrite (IH _ Hf v bins). clear IH Hf.
    rewrite not_elem_of_cons, elem_of_cons. split.
    + intros [[Hv Hs]|[Hv Hl]]; [auto|].
      destruct (decide (v = x)) as [->|Hne].
      * rewrite lookup_insert_eq in Hl. injection Hl as <-.
        left. split; [auto|]. eauto.
      * rewrite lookup_insert_ne in Hl by done. auto.
    + intros [[[->|Hv] (s & Hs & ->)]|[[Hne Hv] Hl]].
      * destruct (decide (x ∈ l)); [left; eauto|].
        right. split; [done|]. rewrite lookup_insert_eq. congruence.
      * left. eauto.
      * right. split; [done|]. by rewrite lookup_insert_ne.
Qed.

Lemma requested_lookup mv vars :
  requested CONTROLS mv = Ok vars ->
  forall v bins, vars !! v = Some bins <->
    is_requested mv v /\ exists s, CONTROLS !! v = Some s /\ bins = elements s.
Proof.
  unfold requested, is_requested. destruct (is_all mv) eqn:E; intros Hr v bins.
  - injection Hr as <-.
    rewrite controls_fold_lookup by apply NoDup_fst_map_to_list.
    rewrite lookup_empty. split.
    + intros [(s & Hs & ->)|[_ ?]]; [|done].
      apply elem_of_map_to_list in Hs. eauto.
    + intros [_ (s & Hs & ->)]. left. exists s.
      split; [by apply elem_of_map_to_list|done].
  - rewrite (requested_loop_lookup _ _ _ Hr v bins), lookup_empty. split.
    + intros [[? ?]|[_ ?]]; [auto|done].
    + intros [[?|?] ?]; [done|auto].
Qed.

Lemma list_remove_Ok x l l' :
  list_remove x l = Ok l' -> NoDup l ->
  forall y, y ∈ l' <-> y ∈ l /\ y <> x.
Proof.
  revert l'. induction l as [|z l IH]; simpl; intros l' Hr Hnd y; [done|].
  apply NoDup_cons in Hnd as [Hz Hnd].
  destruct (String.eqb x z) eqn:E.
  - apply String.eqb_eq in E. subst z. injection Hr as <-.
    rewrite elem_of_cons. split; [|tauto].
    intros Hy. split; [auto|]. intros ->. done.
  - apply String.eqb_neq in E. inv_bind Hr. injection Hr as <-.
    rewrite !elem_of_cons, (IH _ Ha Hnd y). split.
    + intros [->|[? ?]]; split; auto.
    + intros [[->|?] ?]; auto.
Qed.

Lemma drop_count_lookup (vars vars' : gmap string (list string)) :
  drop_count vars = Ok vars' ->
  forall v bins', vars' !! v = Some bins' ->
    exists bins, vars !! v = Some bins /\
      if String.eqb v "num_people" then list_remove "count" bins = Ok bins'
      else bins' = bins.
Proof.
  unfold drop_count. destruct (vars !! "num_people") as [b|] eqn:Hb.
  - intros Hd v bins' Hv. inv_bind Hd. injection Hd as <-.
    destruct (String.eqb v "num_people") eqn:E.
    + apply String.eqb_eq in E. subst v. rewrite lookup_insert_eq in Hv.
      injection Hv as <-. eauto.
    + apply String.eqb_neq in E. rewrite lookup_insert_ne in Hv by done. eauto.
  - intros [= <-] v bins' Hv. exists bins'. split; [done|].
    destruct (String.eqb v "num_people") eqn:E; [|done].
    apply String.eqb_eq in E. congruence.
Qed.

Lemma drop_count_lookup_rev (vars vars' : gmap string (list string)) :
  drop_count vars = Ok vars' ->
  forall v bins, vars !! v = Some bins ->
    exists bins', vars' !! v = Some bins' /\
      if String.eqb v "num_people" then list_remove "count" bins = Ok bins'
      else bins' = bins.
Proof.
  unfold drop_count. destruct (vars !! "num_people") as [b|] eqn:Hb.
  - intros Hd v bins Hv. inv_bind Hd. injection Hd as <-.
    destruct (String.eqb v "num_people") eqn:E.
    + apply String.eqb_eq in E. subst v. rewrite lookup_insert_eq.
      exists a. split; [done|]. congruence.
    + apply String.eqb_neq in E. rewrite lookup_insert_ne by done. eauto.
  - intros [= <-] v bins Hv. exists bins. split; [done|].
    destruct (String.eqb v "num_people") eqn:E; [|done].
    apply String.eqb_eq in E. congruence.
Qed.

(** The rows of the table are those of the working dictionary. *)
Lemma comparison_keys self mv t :
  _comparison_dataframe CONTROLS self mv = Ok t ->
  exists vars, (let! v := requested CONTROLS mv in drop_count v) = Ok vars /\
    t_columns t = ["pums"; "gen"; "marginal"] /\
    forall k, k ∈ (t_rows t).*1 <->
      exists bins, vars !! k.1 = Some bins /\ k.2 ∈ bins.
Proof.
  unfold _comparison_dataframe. intros Hc.
  inv_bind Hc. inv_bind Hc. inv_bind Hc.
  apply pd_DataFrame_Ok in Hc as [Hcol Hrows].
  exists a0. rewrite Ha. simpl. split; [done|]. split; [done|].
  intros k. rewrite Hrows.
  rewrite od_keys_map.
  unfold fill in Ha1. rewrite (fill_keys _ _ _ _ Ha1 k). split.
  - intros [Hk|(bins & Hb & Hk)]; [by apply elem_of_nil in Hk|].
    apply elem_of_map_to_list in Hb. eauto.
  - intros (bins & Hb & Hk). right. exists bins.
    split; [by apply elem_of_map_to_list|done].
Qed.

(** Each row of the table is the padded list [row_of] computed for it. *)
Lemma comparison_row self mv t k r :
  _comparison_dataframe CONTROLS self mv = Ok t ->
  od_get key_eqb k (t_rows t) = Some r ->
  exists r0, row_of self k.1 k.2 = Ok r0 /\ r = pad 3 r0.
Proof.
  unfold _comparison_dataframe. intros Hc Hr.
  inv_bind Hc. inv_bind Hc. inv_bind Hc.
  apply pd_DataFrame_Ok in Hc as [_ Hrows]. rewrite Hrows in Hr.
  rewrite (od_get_map (pad (length ["pums"; "gen"; "marginal"]))) in Hr.
  destruct (od_get key_eqb k a1) as [r0|] eqn:Hg; [|discriminate].
  injection Hr as <-. exists r0. split; [|done].
  unfold fill in Ha1.
  destruct (fill_rows _ _ _ _ Ha1 k r0 Hg) as [?|?]; [discriminate|done].
Qed.

End BuilderFacts.

(** ** Selections of a frame *)

Section FrameFacts.
Context {num : Type} `{Number num}.
Implicit Types (df : DataFrame num).

Lemma keep_filter {A} (p : A -> bool) (l : list A) :
  keep (map p l) l = List.filter p l.
Proof.
  induction l as [|x l IH]; simpl; [done|]. rewrite IH. reflexivity.
Qed.

Lemma select_matching df name label col :
  getitem df name = Ok col ->
  rows (select df (eq_label col label)) = matching_records df name label.
Proof.
  unfold getitem, matching_records, has_label.
  destruct (position name (columns df)) as [i|]; [|discriminate].
  intros [= <-]. unfold select, eq_label, column_at. simpl.
  rewrite map_map. apply keep_filter.
Qed.

Lemma weight_sum_total df variable bin weight s :
  weight_sum df variable bin weight = Ok s ->
  weighted_total df variable bin weight = Ok s.
Proof.
  unfold weight_sum, weighted_total. intros Hw. inv_bind Hw. inv_bind Hw.
  unfold getattr in Ha0. simpl in Ha0.
  destruct (position weight (columns df)) as [i|]; [|discriminate].
  injection Ha0 as <-. unfold column_at in Hw.
  by rewrite (select_matching _ _ _ _ Ha) in Hw.
Qed.

Lemma matching_count_present df variable bin g :
  matching_count df variable bin = Ok g ->
  g = of_nat (length (List.filter
                        (fun r => negb (isnull (nth 0 r (Num nan))))
                        (matching_records df variable bin))).
Proof.
  unfold matching_count. intros Hm. inv_bind Hm. inv_bind Hm.
  injection Hm as <-. unfold count_0 in Ha0. simpl in Ha0.
  destruct (columns df); [discriminate|]. injection Ha0 as <-.
  unfold column_at. rewrite (select_matching _ _ _ _ Ha).
  f_equal. generalize (matching_records df variable bin). intros recs.
  induction recs as [|r recs IH]; simpl; [done|].
  destruct (negb (isnull (nth 0 r (Num nan)))); simpl; by rewrite IH.
Qed.

Lemma filter_all {A} (p : A -> bool) (l : list A) :
  (forall x, In x l -> p x = true) -> List.filter p l = l.
Proof.
  induction l as [|x l IH]; simpl; intros Hp; [done|].
  rewrite (Hp x) by auto. rewrite IH by auto. reflexivity.
Qed.

Lemma series_of_rows {K} (t : Table num K) (i : nat) (name : string) :
  position name (t_columns t) = Some i ->
  series t name = Ok (map (fun kv => nth i kv.2 nan) (t_rows t)).
Proof. unfold series. intros ->. reflexivity. Qed.

Lemma zip_with_map {A} (f : num -> num -> num) (g h : A -> num) (l : list A) :
  zip_with f (map g l) (map h l) = map (fun x => f (g x) (h x)) l.
Proof.
  induction l as [|x l IH]; [done|]. cbn [map zip_with]. by rewrite IH.
Qed.

End FrameFacts.

(** ** The comparison table *)

Section BuilderTheorems.
Context {num : Type} `{Number num}.
Variable CONTROLS : gmap string (gset string).
Implicit Types (self : Accuracy num).

(** C4: when the builder returns a table, the pair ("num_people", "count")
    is not among its rows, and when "num_people" is requested (by name or
    under 'all') every other bin CONTROLS lists for it is. *)
Theorem num_people_count_excluded self mv t :
  _comparison_dataframe CONTROLS self mv = Ok t ->
  (("num_people", "count") ∉ (t_rows t).*1) /\
  (is_requested mv "num_people" ->
   forall s b, CONTROLS !! "num_people" = Some s -> b ∈ s -> b <> "count" ->
     ("num_people", b) ∈ (t_rows t).*1).
Proof.
  intros Hc. destruct (comparison_keys _ _ _ _ Hc) as (vars & Hv & _ & Hk).
  inv_bind Hv. pose proof (requested_lookup _ _ _ Ha) as Hreq. split.
  - intros Hin. apply Hk in Hin as (bins' & Hb' & Hcount). simpl in *.
    destruct (drop_count_lookup _ _ Hv _ _ Hb') as (bins & Hb & Hrem).
    simpl in Hrem. apply Hreq in Hb as (_ & s & _ & ->).
    apply (list_remove_Ok _ _ _ Hrem) in Hcount; [|apply NoDup_elements].
    destruct Hcount as [_ Hne]. by apply Hne.
  - intros Hasked s b Hs Hb Hne. apply Hk. simpl.
    assert (a !! "num_people" = Some (elements s)) as Hbins
      by (apply Hreq; eauto).
    destruct (drop_count_lookup_rev _ _ Hv _ _ Hbins) as (bins' & Hb' & Hrem).
    simpl in Hrem. exists bins'. split; [done|].
    apply (list_remove_Ok _ _ _ Hrem); [apply NoDup_elements|].
    split; [by apply elem_of_elements|done].
Qed.

Lemma pad_short (m : num) : pad 3 [m] = [m; nan; nan].
Proof. reflexivity. Qed.

Lemma pad_full (s g m : num) : pad 3 [s; g; m] = [s; g; m].
Proof. reflexivity. Qed.

Lemma row_of_other self v b r :
  v <> "age" -> v <> "num_people" -> v <> "num_vehicles" ->
  row_of self v b = Ok r ->
  exists m, (let! col := getitem (marginals self) (v ++ "_" ++ b) in
             series_sum col) = Ok m /\ r = [m].
Proof.
  intros H1 H2 H3. unfold row_of.
  apply String.eqb_neq in H1, H2, H3. rewrite H1, H2, H3. simpl.
  intros Hr. inv_bind Hr. inv_bind Hr. injection Hr as <-.
  exists a0. rewrite Ha. simpl. auto.
Qed.

Lemma row_of_known self v b r :
  v = "age" \/ v = "num_people" \/ v = "num_vehicles" ->
  row_of self v b = Ok r ->
  exists s g m,
    weight_sum (survey_of self v) v b (weight_of v) = Ok s /\
    matching_count (generated_of self v) v b = Ok g /\
    (let! col := getitem (marginals self) (v ++ "_" ++ b) in
     series_sum col) = Ok m /\
    r = [s; g; m].
Proof.
  intros Hv. unfold row_of. intros Hr. inv_bind Hr.
  assert (exists s g, weight_sum (survey_of self v) v b (weight_of v) = Ok s /\
                      matching_count (generated_of self v) v b = Ok g /\
                      a = [s; g]) as (s & g & Hs & Hg & ->).
  { destruct Hv as [-> | [-> | ->]]; simpl in Ha;
      inv_bind Ha; inv_bind Ha; injection Ha as <-; eauto. }
  inv_bind Hr. inv_bind Hr. injection Hr as <-.
  exists s, g, a0. rewrite Ha0. simpl. auto.
Qed.




(** X1: the survey count of a row is the weight sum over the matching survey
    records: [person_weight] over the persons for "age",
    [household_weight] over the households for the two others. *)
Theorem survey_count_weight_sum self mv t v b r :
  v = "age" \/ v = "num_people" \/ v = "num_vehicles" ->
  _comparison_dataframe CONTROLS self mv = Ok t ->
  od_get key_eqb (v, b) (t_rows t) = Some r ->
  weighted_total (survey_of self v) v b (weight_of v) = Ok (nth 0 r nan).
Proof.
  intros Hv Hc Hr.
  destruct (comparison_row _ _ _ _ _ _ Hc Hr) as (r0 & Hrow & ->).
  destruct (row_of_known _ _ _ _ Hv Hrow) as (s & g & m & Hs & _ & _ & ->).
  simpl. by apply weight_sum_total.
Qed.

(** X2: the generated count of a row is the number of matching generated
    records, provided none of them lacks its first-column entry. *)
Theorem generated_count_record_count self mv t v b r :
  v = "age" \/ v = "num_people" \/ v = "num_vehicles" ->
  (forall rec, In rec (matching_records (generated_of self v) v b) ->
     isnull (nth 0 rec (Num nan)) = false) ->
  _comparison_dataframe CONTROLS self mv = Ok t ->
  od_get key_eqb (v, b) (t_rows t) = Some r ->
  nth 1 r nan = of_nat (length (matching_records (generated_of self v) v b)).
Proof.
  intros Hv Hfirst Hc Hr.
  destruct (comparison_row _ _ _ _ _ _ Hc Hr) as (r0 & Hrow & ->).
  destruct (row_of_known _ _ _ _ Hv Hrow) as (s & g & m & _ & Hg & _ & ->).
  simpl. rewrite (matching_count_present _ _ _ _ Hg).
  rewrite filter_all; [done|]. intros rec Hrec.
  by rewrite (Hfirst rec Hrec).
Qed.

(** Whenever the table is built, [mean_absolute_pct_error] returns: its two
    results are the means of the per-row values [pct_error]. *)
Lemma mean_absolute_pct_error_returns self mv verbose t :
  _comparison_dataframe CONTROLS self mv = Ok t ->
  mean_absolute_pct_error CONTROLS self mv verbose =
  Ok (mean (map (fun kv => pct_error (nth 0 kv.2 nan) (nth 2 kv.2 nan))
                (t_rows t)),
      mean (map (fun kv => pct_error (nth 1 kv.2 nan) (nth 2 kv.2 nan))
                (t_rows t))).
Proof.
  intros Hc. unfold mean_absolute_pct_error. rewrite Hc. simpl.
  destruct (comparison_keys _ _ _ _ Hc) as (_ & _ & Hcol & _).
  unfold mean_absolute_pct_error_of, mean_absolute_pct_error_series.
  rewrite (series_of_rows t 0 "pums"), (series_of_rows t 2 "marginal"),
    (series_of_rows t 1 "gen") by (rewrite Hcol; reflexivity).
  simpl. rewrite !zip_with_map. reflexivity.
Qed.

End BuilderTheorems.

Section BatchTheorems.
Context {num : Type} `{Number num}.
Variable CONTROLS : gmap string (gset string).
Variable read_csv : string -> result (DataFrame num).

(** C10: on the empty mapping [run_pumas] raises nothing, whatever the
    statistic name, and returns the summary with the columns
    "marginal-pums" and "marginal-doppelganger" and no row. *)
Theorem run_pumas_empty data_dir variables statistic verbose :
  run_pumas CONTROLS read_csv ∅ data_dir variables statistic verbose =
  Ok {| t_columns := ["marginal-pums"; "marginal-doppelganger"];
        t_rows := [] |}.
Proof.
  unfold run_pumas, sub_areas. rewrite map_to_list_empty. reflexivity.
Qed.

(** C9, amended: with a statistic name outside the three and at least one
    (state, puma) pair, [run_pumas] returns no summary: it raises
    [AccuracyException] once the first pair's data is loaded (the name is
    checked after the load, inside the loop). *)
Theorem unrecognized_statistic state_puma data_dir variables statistic
  verbose sp rest :
  statistic <> "mean_absolute_pct_error" ->
  statistic <> "mean_root_squared_error" ->
  statistic <> "root_mean_squared_error" ->
  sub_areas state_puma = sp :: rest ->
  (forall accuracy, from_data_dir read_csv sp.1 sp.2 data_dir = Ok accuracy ->
     run_pumas CONTROLS read_csv state_puma data_dir variables statistic
               verbose = Raise AccuracyException) /\
  (forall t, run_pumas CONTROLS read_csv state_puma data_dir variables
                       statistic verbose <> Ok t).
Proof.
  intros H1 H2 H3 Hsp. apply String.eqb_neq in H1, H2, H3.
  assert (run_pumas CONTROLS read_csv state_puma data_dir variables statistic
                    verbose =
          match from_data_dir read_csv sp.1 sp.2 data_dir with
          | Ok _ => Raise AccuracyException
          | Raise e => Raise e
          end) as ->.
  { unfold run_pumas. rewrite Hsp. simpl. unfold run_one at 1.
    rewrite H1, H2, H3.
    destruct (from_data_dir read_csv sp.1 sp.2 data_dir); reflexivity. }
  split.
  - intros accuracy ->. reflexivity.
  - intros t.
    destruct (from_data_dir read_csv sp.1 sp.2 data_dir); discriminate.
Qed.

End BatchTheorems.

(** ** Configuration errors and the shape of the summary *)

Section Configuration.
Context {num : Type} `{Number num}.
Variable CONTROLS : gmap string (gset string).
Variable read_csv : string -> result (DataFrame num).
Implicit Types (self : Accuracy num) (d : list (key * list num)).

Lemma od_get_of_key {V} (d : list (key * V)) k :
  k ∈ d.*1 -> exists v, od_get key_eqb k d = Some v.
Proof.
  induction d as [|[k0 v0] d IH]; simpl; intros Hk.
  - by apply elem_of_nil in Hk.
  - destruct (key_eqb k k0) eqn:E; [eauto|].
    apply elem_of_cons in Hk as [->|Hk]; [|auto].
    by rewrite key_eqb_refl in E.
Qed.

Lemma od_set_fresh {V} (d : list (key * V)) k v :
  k ∉ d.*1 -> od_set key_eqb k v d = d ++ [(k, v)].
Proof.
  induction d as [|[k0 v0] d IH]; simpl; intros Hk; [done|].
  apply not_elem_of_cons in Hk as [Hne Hk].
  destruct (key_eqb k k0) eqn:E.
  - apply key_eqb_eq in E. done.
  - by rewrite IH.
Qed.

(** X3: when a requested (variable, bin) pair has no column
    <variable>_<bin> in the marginal totals, no comparison table is
    returned. *)
Theorem unknown_marginal_column self mv v s b :
  is_requested mv v -> CONTROLS !! v = Some s -> b ∈ s ->
  (v, b) <> ("num_people", "count") ->
  position (v ++ "_" ++ b) (columns (marginals self)) = None ->
  forall t, _comparison_dataframe CONTROLS self mv <> Ok t.
Proof.
  intros Hreq Hs Hb Hne Hpos t Hc.
  destruct (comparison_keys _ _ _ _ Hc) as (vars & Hv & _ & Hk).
  inv_bind Hv.
  assert (a !! v = Some (elements s)) as Hbins
    by (apply (requested_lookup _ _ _ Ha); eauto).
  destruct (drop_count_lookup_rev _ _ Hv _ _ Hbins) as (bins' & Hb' & Hrem).
  assert (b ∈ bins') as Hin.
  { destruct (String.eqb v "num_people") eqn:E.
    - apply String.eqb_eq in E. subst v.
      apply (list_remove_Ok _ _ _ Hrem); [apply NoDup_elements|].
      split; [by apply elem_of_elements|]. intros ->. done.
    - subst bins'. by apply elem_of_elements. }
  assert ((v, b) ∈ (t_rows t).*1) as Hrow by (apply Hk; simpl; eauto).
  apply od_get_of_key in Hrow as (r & Hr).
  destruct (comparison_row _ _ _ _ _ _ Hc Hr) as (r0 & Hrow & _).
  simpl in Hrow. unfold row_of in Hrow. inv_bind Hrow. inv_bind Hrow.
  unfold getitem in Ha1. rewrite Hpos in Ha1. discriminate.
Qed.

Lemma run_loop_rows data_dir variables statistic verbose pairs d d' :
  for_each (run_one CONTROLS read_csv data_dir variables statistic verbose)
           pairs d = Ok d' ->
  NoDup (d.*1 ++ pairs) ->
  Forall (fun kv => length kv.2 = 2) d ->
  d'.*1 = d.*1 ++ pairs /\ Forall (fun kv => length kv.2 = 2) d'.
Proof.
  revert d. induction pairs as [|sp pairs IH]; simpl; intros d Hf Hnd Hlen.
  - injection Hf as <-. by rewrite app_nil_r.
  - inv_bind Hf. unfold run_one in Ha. inv_bind Ha. inv_bind Ha.
    injection Ha as <-.
    assert (sp ∉ d.*1) as Hfresh.
    { apply NoDup_app in Hnd as (_ & Hdis & _). intros Hin.
      apply (Hdis _ Hin). left. }
    rewrite od_set_fresh in Hf by done.
    destruct (IH _ Hf) as [Hkeys Hall].
    + rewrite fmap_app. simpl. rewrite <- app_assoc. exact Hnd.
    + apply Forall_app. split; [done|]. by constructor.
    + split; [|done]. rewrite Hkeys, fmap_app, <- app_assoc. reflexivity.
Qed.

(** X4: a summary [run_pumas] returns has the columns "marginal-pums" and
    "marginal-doppelganger" and one row of two values per sub-area, in the
    order the loops visit them. *)
Theorem summary_shape state_puma data_dir variables statistic verbose t :
  NoDup (sub_areas state_puma) ->
  run_pumas CONTROLS read_csv state_puma data_dir variables statistic verbose
    = Ok t ->
  t_columns t = ["marginal-pums"; "marginal-doppelganger"] /\
  (t_rows t).*1 = sub_areas state_puma /\
  Forall (fun kv => length kv.2 = 2) (t_rows t).
Proof.
  intros Hnd Hr. unfold run_pumas in Hr. inv_bind Hr.
  apply pd_DataFrame_Ok in Hr as [Hcol Hrows].
  destruct (run_loop_rows _ _ _ _ _ _ _ Ha) as [Hkeys Hlen]; [done|done|].
  split; [done|]. rewrite Hrows, od_keys_map. split; [done|].
  apply Forall_forall. intros kv Hkv. apply list_elem_of_In in Hkv.
  apply in_map_iff in Hkv as ([k r] & <- & Hin). simpl.
  apply list_elem_of_In in Hin.
  rewrite Forall_forall in Hlen. specialize (Hlen _ Hin). simpl in Hlen.
  unfold pad. rewrite length_app, repeat_length, Hlen. reflexivity.
Qed.

End Configuration.

(** ** The statistics in exact arithmetic *)

Section ExactArithmetic.
Local Open Scope R_scope.
Implicit Types (rws : list (key * counts)) (h : key * counts -> R).

Lemma series_pums rws :
  series (comparison_table rws) "pums" =
  Ok (map (fun kc => Fin (survey_count kc.2)) rws).
Proof. unfold series, comparison_table. simpl. by rewrite map_map. Qed.

Lemma series_gen rws :
  series (comparison_table rws) "gen" =
  Ok (map (fun kc => Fin (generated_count kc.2)) rws).
Proof. unfold series, comparison_table. simpl. by rewrite map_map. Qed.

Lemma series_marginal rws :
  series (comparison_table rws) "marginal" =
  Ok (map (fun kc => Fin (marginal_count kc.2)) rws).
Proof. unfold series, comparison_table. simpl. by rewrite map_map. Qed.

Lemma zip_sub_Fin h1 h2 rws :
  zip_with sub (map (fun kc => Fin (h1 kc)) rws)
               (map (fun kc => Fin (h2 kc)) rws) =
  map (fun kc => Fin (h1 kc - h2 kc)) rws.
Proof.
  induction rws as [|kc rws IH]; [done|].
  cbn [map zip_with]. rewrite IH. reflexivity.
Qed.

Lemma fold_add_Fin (xs : list R) (acc : R) :
  fold_left add (map Fin xs) (Fin acc) = Fin (acc + Rsum xs).
Proof.
  revert acc. induction xs as [|x xs IH]; simpl; intros acc.
  - by rewrite Rplus_0_r.
  - by rewrite IH, Rplus_assoc.
Qed.

Lemma nansum_Fin (xs : list R) : nansum (map Fin xs) = Fin (Rsum xs).
Proof.
  unfold nansum. rewrite map_map. simpl.
  destruct xs as [|x xs]; simpl; [done|]. apply fold_add_Fin.
Qed.

Lemma mean_Fin (xs : list R) :
  xs <> [] -> mean (map Fin xs) = Fin (Rmean xs).
Proof.
  intros Hne. unfold mean.
  assert (List.filter (fun x => negb (isnan x)) (map Fin xs) = map Fin xs)
    as ->.
  { clear. induction xs as [|x xs IH]; simpl; [done|]. f_equal. exact IH. }
  rewrite length_map. destruct xs as [|x xs]; [done|].
  cbn [length]. rewrite nansum_Fin. cbn [div xreal_number XReal.divide of_nat].
  destruct (Req_EM_T (INR (S (length xs))) 0) as [E|_].
  - exfalso. by apply (not_0_INR (S (length xs))).
  - reflexivity.
Qed.

Lemma Rsum_cons (x : R) (xs : list R) : Rsum (x :: xs) = x + Rsum xs.
Proof. reflexivity. Qed.

Lemma Rsum_nonneg (xs : list R) : Forall (Rle 0) xs -> 0 <= Rsum xs.
Proof.
  induction 1 as [|x xs Hx _ IH]; simpl; [lra|]. lra.
Qed.

Lemma Rmean_nonneg (xs : list R) :
  xs <> [] -> Forall (Rle 0) xs -> 0 <= Rmean xs.
Proof.
  intros Hne Hxs. unfold Rmean. apply Rle_mult_inv_pos.
  - by apply Rsum_nonneg.
  - destruct xs; [done|]. apply lt_0_INR. simpl. lia.
Qed.

Lemma squares_nonneg h rws :
  Forall (Rle 0) (map (fun kc => h kc ^ 2) rws).
Proof.
  apply Forall_forall. intros y Hy. apply list_elem_of_In in Hy.
  apply in_map_iff in Hy as (kc & <- & _). apply pow2_ge_0.
Qed.

Lemma root_mean_square h rws :
  rws <> [] ->
  sqroot (mean (map square (map (fun kc => Fin (h kc)) rws))) =
  Fin (R_sqrt.sqrt (Rmean (map (fun kc => h kc ^ 2) rws))).
Proof.
  intros Hne.
  assert (map square (map (fun kc => Fin (h kc)) rws) =
          map Fin (map (fun kc => h kc ^ 2) rws)) as ->.
  { rewrite !map_map. apply map_ext. intros kc. unfold square. simpl.
    f_equal. ring. }
  rewrite mean_Fin by (destruct rws; [done|discriminate]).
  cbn [sqroot xreal_number XReal.root].
  destruct (Rlt_dec _ 0) as [Hneg|_]; [|done].
  pose proof (Rmean_nonneg (map (fun kc => h kc ^ 2) rws)) as Hpos.
  exfalso. apply (Rlt_not_le _ _ Hneg). apply Hpos.
  - destruct rws; [done|discriminate].
  - apply squares_nonneg.
Qed.

Lemma root_squared_Fin h1 h2 rws :
  root_squared (map (fun kc => Fin (h1 kc)) rws)
               (map (fun kc => Fin (h2 kc)) rws) =
  map Fin (map (fun kc => Rabs (h1 kc - h2 kc)) rws).
Proof.
  unfold root_squared. rewrite zip_sub_Fin, !map_map. apply map_ext.
  intros kc. unfold square.
  cbn [mul sqroot xreal_number XReal.times XReal.root].
  destruct (Rlt_dec _ 0) as [Hneg|_].
  - exfalso. apply (Rlt_not_le _ _ Hneg). apply Rle_0_sqr.
  - f_equal. apply sqrt_Rsqr_abs.
Qed.



Lemma pct_error_Fin (a b : R) :
  a + b <> 0 ->
  pct_error (Fin a) (Fin b) = Fin (Rabs (a - b) / ((a + b) / 2)).
Proof.
  intros Hab. unfold pct_error.
  cbn [div sub add absolute of_nat xreal_number XReal.divide XReal.minus
       XReal.plus XReal.neg XReal.magnitude].
  destruct (Req_EM_T (INR 2) 0) as [E|_]; [simpl in E; lra|].
  destruct (Req_EM_T ((a + b) / INR 2) 0) as [E|_]; [simpl in E; lra|].
  simpl. reflexivity.
Qed.

Lemma pct_error_sym (a b : R) :
  pct_error (Fin a) (Fin b) = pct_error (Fin b) (Fin a).
Proof.
  unfold pct_error.
  cbn [div sub add absolute of_nat xreal_number XReal.divide XReal.minus
       XReal.plus XReal.neg XReal.magnitude].
  fold (Rminus a b). fold (Rminus b a).
  rewrite (Rabs_minus_sym a b), (Rplus_comm a b). reflexivity.
Qed.

End ExactArithmetic.



(** ** Rounding never produces an undefined value *)

Section NoSpuriousNaN.
Local Open Scope Z_scope.

Lemma shr_1_nonneg mrs : 0 <= shr_m mrs -> 0 <= shr_m (shr_1 mrs).
Proof.
  destruct mrs as [m r s].
  destruct m as [|[p|p|]|[p|p|]]; simpl; lia.
Qed.

Lemma iter_shr_1_nonneg p mrs :
  0 <= shr_m mrs -> 0 <= shr_m (SpecFloat.iter_pos shr_1 p mrs).
Proof.
  revert mrs. induction p as [p IH|p IH|]; simpl; intros mrs Hm.
  - apply IH, IH, shr_1_nonneg, Hm.
  - apply IH, IH, Hm.
  - apply shr_1_nonneg, Hm.
Qed.

Lemma shr_fexp_nonneg prec emax m e l :
  0 <= m -> 0 <= shr_m (shr_fexp prec emax m e l).1.
Proof.
  intros Hm. unfold shr_fexp, shr.
  assert (0 <= shr_m (shr_record_of_loc m l)) as H0
    by (destruct l as [|[]]; exact Hm).
  destruct (_ - e); simpl; auto using iter_shr_1_nonneg.
Qed.

Lemma round_nearest_even_nonneg m l : 0 <= m -> 0 <= round_nearest_even m l.
Proof.
  intros Hm. destruct l as [|[]]; simpl; try lia.
  destruct (Z.even m); lia.
Qed.

Lemma binary_round_aux_not_nan prec emax sx mx ex lx :
  0 <= mx -> binary_round_aux prec emax sx mx ex lx <> S754_nan.
Proof.
  intros Hm. unfold binary_round_aux.
  pose proof (shr_fexp_nonneg prec emax mx ex lx Hm) as H1.
  destruct (shr_fexp prec emax mx ex lx) as [mrs' e']. simpl in H1.
  pose proof (shr_fexp_nonneg prec emax _ e' loc_Exact
                (round_nearest_even_nonneg _ (loc_of_shr_record mrs') H1))
    as H2.
  destruct (shr_fexp prec emax _ e' loc_Exact) as [mrs'' e'']. simpl in H2.
  destruct (shr_m mrs'') as [|p|p]; [discriminate| |lia].
  destruct (e'' <=? emax - prec); discriminate.
Qed.

Lemma binary_normalize_not_nan prec emax m e szero :
  binary_normalize prec emax m e szero <> S754_nan.
Proof.
  unfold binary_normalize, binary_round.
  destruct m as [|p|p]; [discriminate| |];
    destruct (shl_align _ _ _) as [mz ez];
    apply binary_round_aux_not_nan; lia.
Qed.

(** A difference is undefined only when an operand is, or both are
    infinities of one sign: never when the sum is a zero. *)
Lemma SFsub_not_nan_of_zero_sum prec emax x y s :
  SFadd prec emax x y = S754_zero s -> SFsub prec emax x y <> S754_nan.
Proof.
  destruct x as [sx|sx| |sx mx ex], y as [sy|sy| |sy my ey]; simpl;
    try discriminate.
  - destruct sx, sy; discriminate.
  - destruct sx, sy; discriminate.
  - intros _. apply binary_normalize_not_nan.
Qed.

End NoSpuriousNaN.

Section ZeroSum.
Local Open Scope float_scope.

Lemma nonzero64_of_zero_sum (a b : float) :
  is_zero64 (a + b) -> ~ is_zero64 (a - b) -> is_nonzero64 (a - b).
Proof.
  intros [s Hs] Hnz. unfold is_nonzero64.
  rewrite add_spec in Hs. apply SFsub_not_nan_of_zero_sum in Hs.
  fold SF64sub in Hs. rewrite <- sub_spec in Hs.
  destruct (Prim2SF (a - b)) as [s'|s'| |s' m e] eqn:E; try done.
  apply Hnz. exists s'. exact E.
Qed.

End ZeroSum.

(** ** Symmetry of the binary64 operations *)

Section Symmetry64.
Local Open Scope Z_scope.

Lemma SFabs_binary_round_aux prec emax s m e l :
  SFabs (binary_round_aux prec emax s m e l) =
  SFabs (binary_round_aux prec emax false m e l).
Proof.
  unfold binary_round_aux.
  destruct (shr_fexp prec emax m e l) as [mrs' e'].
  destruct (shr_fexp prec emax _ e' loc_Exact) as [mrs'' e''].
  destruct (shr_m mrs''); [reflexivity| |reflexivity].
  destruct (e'' <=? emax - prec); reflexivity.
Qed.

Lemma SFabs_binary_normalize_opp prec emax m e szero :
  SFabs (binary_normalize prec emax (- m) e szero) =
  SFabs (binary_normalize prec emax m e szero).
Proof.
  unfold binary_normalize, binary_round.
  destruct m as [|p|p]; simpl; [reflexivity| |];
    destruct (shl_align _ _ _) as [mz ez];
    [|symmetry]; apply SFabs_binary_round_aux.
Qed.

Lemma SFabs_SFsub_sym prec emax x y :
  SFabs (SFsub prec emax x y) = SFabs (SFsub prec emax y x).
Proof.
  destruct x as [sx|sx| |sx mx ex], y as [sy|sy| |sy my ey]; simpl;
    try reflexivity; try (destruct sx, sy; reflexivity).
  rewrite (Z.min_comm ey ex).
  rewrite <- (SFabs_binary_normalize_opp prec emax
                (cond_Zopp sx _ - cond_Zopp sy _)).
  f_equal. f_equal. lia.
Qed.

Lemma SFadd_comm prec emax x y :
  SFadd prec emax x y = SFadd prec emax y x.
Proof.
  destruct x as [sx|sx| |sx mx ex], y as [sy|sy| |sy my ey]; simpl;
    try reflexivity; try (destruct sx, sy; reflexivity).
  rewrite (Z.min_comm ey ex), Z.add_comm. reflexivity.
Qed.

End Symmetry64.

Section PctSymmetry.
Local Open Scope float_scope.

Lemma pct_error_sym64 (a b : float) : pct_error a b = pct_error b a.
Proof.
  apply Prim2SF_inj. unfold pct_error.
  cbn [div sub add absolute of_nat float_number].
  rewrite !div_spec, !abs_spec, !sub_spec, !add_spec.
  unfold SF64sub, SF64add.
  rewrite (SFabs_SFsub_sym prec emax (Prim2SF a) (Prim2SF b)).
  rewrite (SFadd_comm prec emax (Prim2SF a) (Prim2SF b)).
  reflexivity.
Qed.

End PctSymmetry.

(** ** The percentage error in binary64 *)

Section Binary64.
Local Open Scope float_scope.

Lemma zero64_cases (x : float) :
  is_zero64 x -> x = 0 \/ x = -0.
Proof.
  intros [s Hs]. rewrite <- (SF2Prim_Prim2SF x), Hs.
  destruct s; [right|left]; reflexivity.
Qed.

Lemma pct_error_zero_zero (a b : float) :
  is_zero64 a -> is_zero64 b -> pct_error a b = PrimFloat.nan.
Proof.
  intros Ha Hb.
  destruct (zero64_cases a Ha) as [-> | ->],
           (zero64_cases b Hb) as [-> | ->]; vm_compute; reflexivity.
Qed.

Lemma pct_error_zero_sum (a b : float) :
  is_zero64 (a + b) -> is_nonzero64 (a - b) -> is_infinite64 (pct_error a b).
Proof.
  intros [s Hs] Hnz. unfold is_infinite64, is_nonzero64 in *.
  unfold pct_error. cbn [div sub add absolute of_nat float_number].
  rewrite div_spec, abs_spec, div_spec, Hs.
  set (two := Prim2SF (of_uint63 (Uint63.of_Z (Z.of_nat 2)))).
  vm_compute in two. subst two.
  destruct (Prim2SF (a - b)) as [s'|s'| |s' m e]; try contradiction.
  - exists (xorb false (xorb s false)). reflexivity.
  - exists (xorb false (xorb s false)). reflexivity.
Qed.

End Binary64.

Section OrderIndependence.
Local Open Scope R_scope.

(** C7: the per-row symmetric percentage error does not depend on the
    order of its two operands: rows (survey = a, marginal = b) and
    (survey = b, marginal = a) get the same value, |a - b| / ((a + b) / 2).
    The same holds of every pair of binary64 values; 80 against 100 and
    100 against 80 both give 0.2222.... *)
Theorem pct_error_order_independent (a b : R) :
  a <> 0 -> b <> 0 ->
  pct_error (Fin a) (Fin b) = pct_error (Fin b) (Fin a) /\
  (a + b <> 0 ->
   pct_error (Fin a) (Fin b) = Fin (Rabs (a - b) / ((a + b) / 2))) /\
  (forall k g,
     mean_absolute_pct_error_series
       (comparison_table [(k, {| survey_count := a; generated_count := g;
                                 marginal_count := b |})]) =
       Ok ([pct_error (Fin a) (Fin b)], [pct_error (Fin g) (Fin b)]) /\
     mean_absolute_pct_error_series
       (comparison_table [(k, {| survey_count := b; generated_count := g;
                                 marginal_count := a |})]) =
       Ok ([pct_error (Fin a) (Fin b)], [pct_error (Fin g) (Fin a)])) /\
  (forall x y : float, pct_error x y = pct_error y x) /\
  pct_error 80%float 100%float = 0x1.c71c71c71c71cp-3%float /\
  pct_error 100%float 80%float = 0x1.c71c71c71c71cp-3%float.
Proof.
  intros _ _. split; [apply pct_error_sym|]. split; [apply pct_error_Fin|].
  split; [|split; [exact pct_error_sym64 | split; vm_compute; reflexivity]].
  intros k g. split.
  - reflexivity.
  - rewrite (pct_error_sym a b). reflexivity.
Qed.

End OrderIndependence.

(** C8: the division of [mean_absolute_pct_error] is unguarded.  A row whose
    two operands are zeros has the undefined value (NaN); a row whose
    operands have a zero sum and a nonzero difference has an infinite
    value; and whenever the comparison table is built the statistic
    returns, its results being the means of these per-row values. *)
Theorem pct_error_unguarded :
  (forall a b : float,
     is_zero64 a -> is_zero64 b -> pct_error a b = PrimFloat.nan) /\
  (forall a b : float,
     is_zero64 (a + b)%float -> ~ is_zero64 (a - b)%float ->
     is_infinite64 (pct_error a b)) /\
  (forall CONTROLS (self : Accuracy float) mv verbose t,
     _comparison_dataframe CONTROLS self mv = Ok t ->
     mean_absolute_pct_error CONTROLS self mv verbose =
     Ok (mean (map (fun kv => pct_error (nth 0 kv.2 nan) (nth 2 kv.2 nan))
                   (t_rows t)),
         mean (map (fun kv => pct_error (nth 1 kv.2 nan) (nth 2 kv.2 nan))
                   (t_rows t)))).
Proof.
  split; [exact pct_error_zero_zero|]. split.
  - intros a b Hsum Hdiff. apply pct_error_zero_sum; [done|].
    by apply nonzero64_of_zero_sum.
  - intros CONTROLS self mv verbose t.
    apply mean_absolute_pct_error_returns.
Qed.

(** ** The data set of the examples *)

Section Examples.
Local Open Scope float_scope.


(** C1, at a generated population whose first column lacks an entry: two
    generated persons are aged 0-17, and the table counts one, because
    [count()[0]] counts the entries present in the first column. *)
Theorem generated_count_skips_missing_first_column :
  length (matching_records ex_gen_persons "age" "0-17") = 2%nat /\
  _comparison_dataframe ex_controls ex_accuracy (Names ["age"]) =
    Ok {| t_columns := ["pums"; "gen"; "marginal"];
          t_rows := [("age", "18-34", [7; 0; 8]);
                     ("age", "0-17", [15.5; 1; 20])] |}.
Proof. split; vm_compute; reflexivity. Qed.





Lemma num_people_count_excluded_witness :
  (("num_people", "count") ∉ (t_rows ex_table).*1) /\
  (is_requested (Names ["all"]) "num_people" ->
   forall s b, ex_controls !! "num_people" = Some s -> b ∈ s ->
     b <> "count" -> ("num_people", b) ∈ (t_rows ex_table).*1).
Proof.
  apply (num_people_count_excluded ex_controls ex_accuracy (Names ["all"])
           ex_table).
  vm_compute. reflexivity.
Defined.

Lemma survey_count_weight_sum_witness :
  weighted_total (survey_of ex_accuracy "age") "age" "0-17" (weight_of "age")
  = Ok (nth 0 [15.5; 1; 20] nan).
Proof.
  apply (survey_count_weight_sum ex_controls ex_accuracy (Names ["all"])
           ex_table "age" "0-17" [15.5; 1; 20]).
  - left. reflexivity.
  - vm_compute. reflexivity.
  - vm_compute. reflexivity.
Defined.

Lemma generated_count_record_count_witness :
  nth 1 [5; 2; 5] nan =
  of_nat (length (matching_records (generated_of ex_accuracy "num_people")
                                   "num_people" "1")).
Proof.
  apply (generated_count_record_count ex_controls ex_accuracy (Names ["all"])
           ex_table "num_people" "1" [5; 2; 5]).
  - right. left. reflexivity.
  - intros rec Hrec. vm_compute in Hrec.
    destruct Hrec as [<-|[<-|[]]]; reflexivity.
  - vm_compute. reflexivity.
  - vm_compute. reflexivity.
Defined.

(** When only variables outside the three are requested every row is
    short, and the frame constructor refuses the three column names. *)
Example only_other_variables :
  _comparison_dataframe ex_controls ex_accuracy (Names ["tenure"]) =
  Raise AssertionError.
Proof. vm_compute. reflexivity. Qed.

(** C9, as stated, fails on the empty mapping: an unknown statistic name
    raises nothing there and the empty summary is returned. *)
Lemma unrecognized_statistic_counterexample :
  run_pumas ex_controls ex_read_csv ∅ "data" (Names ["all"]) "bogus_stat"
            false =
  Ok {| t_columns := ["marginal-pums"; "marginal-doppelganger"];
        t_rows := [] |}.
Proof. vm_compute. reflexivity. Qed.

Lemma unrecognized_statistic_witness :
  (forall accuracy,
     from_data_dir ex_read_csv ("20", "00500").1 ("20", "00500").2 "data" =
       Ok accuracy ->
     run_pumas ex_controls ex_read_csv ex_state_puma "data" (Names ["all"])
               "bogus_stat" false = Raise AccuracyException) /\
  (forall t,
     run_pumas ex_controls ex_read_csv ex_state_puma "data" (Names ["all"])
               "bogus_stat" false <> Ok t).
Proof.
  apply (unrecognized_statistic ex_controls ex_read_csv ex_state_puma "data"
           (Names ["all"]) "bogus_stat" false ("20", "00500") []).
  - discriminate.
  - discriminate.
  - discriminate.
  - vm_compute. reflexivity.
Defined.

Lemma unknown_marginal_column_witness :
  (forall t, _comparison_dataframe ex_controls_wide ex_accuracy
                                   (Names ["age"]) <> Ok t) /\
  _comparison_dataframe ex_controls_wide ex_accuracy (Names ["age"]) =
    Raise KeyError.
Proof.
  split; [|vm_compute; reflexivity].
  apply (unknown_marginal_column ex_controls_wide ex_accuracy (Names ["age"])
           "age" {["0-17"; "18-34"; "35-64"]} "35-64").
  - right. vm_compute. left.
  - vm_compute. reflexivity.
  - set_solver.
  - discriminate.
  - vm_compute. reflexivity.
Defined.

Lemma summary_shape_witness :
  t_columns {| t_columns := ["marginal-pums"; "marginal-doppelganger"];
               t_rows := [("20", "00500", [2.75; 13.5])] |} =
    ["marginal-pums"; "marginal-doppelganger"] /\
  (t_rows {| t_columns := ["marginal-pums"; "marginal-doppelganger"];
             t_rows := [("20", "00500", [2.75; 13.5])] |}).*1 =
    sub_areas ex_state_puma /\
  Forall (fun kv : key * list float => length kv.2 = 2%nat)
         (t_rows {| t_columns := ["marginal-pums"; "marginal-doppelganger"];
                    t_rows := [("20", "00500", [2.75; 13.5])] |}).
Proof.
  apply (summary_shape ex_controls ex_read_csv ex_state_puma "data"
           (Names ["age"]) "mean_root_squared_error" false).
  - vm_compute. apply NoDup_singleton.
  - vm_compute. reflexivity.
Defined.

(** The batch on the example directory, with a known statistic. *)
Example run_pumas_example :
  run_pumas ex_controls ex_read_csv ex_state_puma "data" (Names ["age"])
            "mean_root_squared_error" false =
  Ok {| t_columns := ["marginal-pums"; "marginal-doppelganger"];
        t_rows := [("20", "00500", [2.75; 13.5])] |}.
Proof. vm_compute. reflexivity. Qed.

Example pct_error_degenerate :
  pct_error 0 0 = nan /\ pct_error 5 (-5) = infinity /\
  pct_error 80 100 = 0x1.c71c71c71c71cp-3.
Proof. repeat split; vm_compute; reflexivity. Qed.

End Examples.

Section ExactExamples.
Local Open Scope R_scope.



Lemma pct_error_order_independent_witness :
  pct_error (Fin 80) (Fin 100) = pct_error (Fin 100) (Fin 80).
Proof.
  apply (pct_error_order_independent 80 100); lra.
Defined.

End ExactExamples.

(** ** The index of the comparison table and its configuration errors *)

Section IndexOfTheTable.
Context {num : Type} `{Number num}.
Variable CONTROLS : gmap string (gset string).
Implicit Types (self : Accuracy num) (d : list (key * list num)).

Lemma od_set_NoDup {V} (d : list (key * V)) k v :
  NoDup d.*1 -> NoDup (od_set key_eqb k v d).*1.
Proof.
  induction d as [|[k0 v0] d IH]; simpl; intros Hnd.
  - apply NoDup_singleton.
  - apply NoDup_cons in Hnd as [Hk0 Hnd].
    destruct (key_eqb k k0) eqn:E; simpl.
    + apply NoDup_cons. done.
    + apply NoDup_cons. split; [|auto].
      rewrite od_set_keys. intros [->|?]; [|done].
      by rewrite key_eqb_refl in E.
Qed.

Lemma od_get_elem {V} (d : list (key * V)) k v :
  NoDup d.*1 -> (k, v) ∈ d -> od_get key_eqb k d = Some v.
Proof.
  induction d as [|[k0 v0] d IH]; simpl; intros Hnd Hin.
  - by apply elem_of_nil in Hin.
  - apply NoDup_cons in Hnd as [Hk0 Hnd].
    apply elem_of_cons in Hin as [[= -> ->]|Hin].
    + by rewrite key_eqb_refl.
    + destruct (key_eqb k k0) eqn:E; [|auto].
      apply key_eqb_eq in E. subst k0. exfalso. apply Hk0.
      apply list_elem_of_fmap. exists (k, v). done.
Qed.

Lemma fill_bins_NoDup self v bins d d' :
  fill_bins self v bins d = Ok d' -> NoDup d.*1 -> NoDup d'.*1.
Proof.
  unfold fill_bins. revert d.
  induction bins as [|b bins IH]; simpl; intros d Hf Hnd.
  - by injection Hf as <-.
  - inv_bind Hf. inv_bind Ha. injection Ha as <-.
    apply (IH _ Hf). by apply od_set_NoDup.
Qed.

Lemma fill_NoDup self items d d' :
  for_each (fun d vb => fill_bins self vb.1 vb.2 d) items d = Ok d' ->
  NoDup d.*1 -> NoDup d'.*1.
Proof.
  revert d. induction items as [|[v bins] items IH]; simpl; intros d Hf Hnd.
  - by injection Hf as <-.
  - inv_bind Hf. apply (IH _ Hf). by apply (fill_bins_NoDup _ _ _ _ _ Ha).
Qed.

Lemma pad_rows_width {K} (w : nat) (l : list (K * list num)) :
  Forall (fun k => k <= w) (map (fun kv => length kv.2) l) ->
  Forall (fun kv => length kv.2 = w) (map (fun kv => (kv.1, pad w kv.2)) l).
Proof.
  induction l as [|x l IH]; cbn [map]; intros Hle; [constructor|].
  apply Forall_cons in Hle as [Hx Hl]. constructor; [|auto].
  simpl. unfold pad. rewrite length_app, repeat_length. lia.
Qed.

Lemma pd_DataFrame_widths {K} (d : list (K * list num)) names t :
  pd_DataFrame d names = Ok t ->
  Forall (fun kv => length kv.2 = length names) (t_rows t).
Proof.
  unfold pd_DataFrame. destruct d as [|kv d].
  - intros [= <-]. constructor.
  - destruct (Nat.eqb _ _) eqn:E; [|discriminate].
    apply Nat.eqb_eq in E. intros [= <-]. rewrite <- E.
    exact (pad_rows_width _ (kv :: d) (proj1 (list_max_le _ _) (le_n _))).
Qed.

Lemma list_max_attained (l : list nat) :
  l <> [] -> In (list_max l) l.
Proof.
  induction l as [|x l IH]; [done|]. intros _. cbn [list_max fold_right].
  fold (list_max l). destruct l as [|y l'].
  - left. simpl. lia.
  - destruct (Nat.max_spec x (list_max (y :: l'))) as [[_ ->]|[_ ->]].
    + right. by apply IH.
    + by left.
Qed.

(** The table and the working dictionary it was built from. *)
Lemma comparison_dict self mv t :
  _comparison_dataframe CONTROLS self mv = Ok t ->
  exists d, NoDup d.*1 /\
    pd_DataFrame d ["pums"; "gen"; "marginal"] = Ok t /\
    forall k r, (k, r) ∈ d -> row_of self k.1 k.2 = Ok r.
Proof.
  unfold _comparison_dataframe. intros Hc.
  inv_bind Hc. inv_bind Hc. inv_bind Hc. exists a1. unfold fill in Ha1.
  assert (NoDup a1.*1) as Hnd
    by (apply (fill_NoDup _ _ _ _ Ha1); constructor).
  split; [done|]. split; [done|]. intros k r Hin.
  destruct (fill_rows _ _ _ _ Ha1 k r (od_get_elem _ _ _ Hnd Hin)); done.
Qed.

Lemma index_iff self mv t v b :
  _comparison_dataframe CONTROLS self mv = Ok t ->
  (v, b) ∈ (t_rows t).*1 <->
  is_requested mv v /\ (exists s, CONTROLS !! v = Some s /\ b ∈ s) /\
  (v, b) <> ("num_people", "count").
Proof.
  intros Hc. destruct (comparison_keys _ _ _ _ Hc) as (vars & Hv & _ & Hk).
  inv_bind Hv. pose proof (requested_lookup _ _ _ Ha) as Hreq.
  rewrite Hk. simpl. split.
  - intros (bins' & Hb' & Hin).
    destruct (drop_count_lookup _ _ Hv _ _ Hb') as (bins & Hb & Hrem).
    apply Hreq in Hb as (Hr & s & Hs & ->). split; [done|].
    destruct (String.eqb v "num_people") eqn:E.
    + apply (list_remove_Ok _ _ _ Hrem) in Hin as [Hin Hne];
        [|apply NoDup_elements].
      split; [exists s; split; [done|by apply elem_of_elements]|].
      intros [= _ ->]. done.
    + subst bins'. apply String.eqb_neq in E.
      split; [exists s; split; [done|by apply elem_of_elements]|].
      intros [= -> _]. done.
  - intros (Hr & (s & Hs & Hin) & Hne).
    assert (a !! v = Some (elements s)) as Hbins by (apply Hreq; eauto).
    destruct (drop_count_lookup_rev _ _ Hv _ _ Hbins) as (bins' & Hb' & Hrem).
    exists bins'. split; [done|].
    destruct (String.eqb v "num_people") eqn:E.
    + apply String.eqb_eq in E. subst v.
      apply (list_remove_Ok _ _ _ Hrem); [apply NoDup_elements|].
      split; [by apply elem_of_elements|]. intros ->. done.
    + subst bins'. by apply elem_of_elements.
Qed.

(** X5: the rows of a returned comparison table are exactly the pairs
    (variable, bin) with the variable requested and the bin listed for it
    in CONTROLS, ("num_people", "count") apart; no pair has two rows, and
    every row has three entries. *)
Theorem comparison_index self mv t :
  _comparison_dataframe CONTROLS self mv = Ok t ->
  NoDup (t_rows t).*1 /\
  Forall (fun kv => length kv.2 = 3) (t_rows t) /\
  forall v b, (v, b) ∈ (t_rows t).*1 <->
    is_requested mv v /\ (exists s, CONTROLS !! v = Some s /\ b ∈ s) /\
    (v, b) <> ("num_people", "count").
Proof.
  intros Hc. split; [|split].
  - destruct (comparison_dict _ _ _ Hc) as (d & Hnd & Hpd & _).
    apply pd_DataFrame_Ok in Hpd as [_ ->]. by rewrite od_keys_map.
  - destruct (comparison_dict _ _ _ Hc) as (d & _ & Hpd & _).
    apply (pd_DataFrame_widths _ _ _ Hpd).
  - intros v b. exact (index_iff self mv t v b Hc).
Qed.

Lemma requested_loop_KeyError (l : list string)
  (acc : gmap string (list string)) v :
  v ∈ l -> CONTROLS !! v = None ->
  for_each (fun variables var =>
              match CONTROLS !! var with
              | Some bin_dict => Ok (<[var := elements bin_dict]> variables)
              | None => Raise KeyError
              end) l acc = Raise KeyError.
Proof.
  intros Hin Hv. revert acc. induction l as [|x l IH]; intros acc.
  - by apply elem_of_nil in Hin.
  - simpl. destruct (CONTROLS !! x) as [sx|] eqn:Hx; [|reflexivity].
    simpl. apply IH. apply elem_of_cons in Hin as [->|?]; [congruence|done].
Qed.

(** X6: an explicit request naming a variable CONTROLS does not define is
    answered with [KeyError]. *)
Theorem unknown_variable self mv v :
  is_all mv = false -> v ∈ iterate mv -> CONTROLS !! v = None ->
  _comparison_dataframe CONTROLS self mv = Raise KeyError.
Proof.
  intros Hall Hin Hv. unfold _comparison_dataframe, requested.
  rewrite Hall, (requested_loop_KeyError _ _ v Hin Hv). reflexivity.
Qed.

Lemma requested_loop_defined (l : list string)
  (acc : gmap string (list string)) :
  (forall v, v ∈ l -> is_Some (CONTROLS !! v)) ->
  exists vars,
    for_each (fun variables var =>
                match CONTROLS !! var with
                | Some bin_dict => Ok (<[var := elements bin_dict]> variables)
                | None => Raise KeyError
                end) l acc = Ok vars.
Proof.
  revert acc. induction l as [|x l IH]; simpl; intros acc Hdef; [eauto|].
  destruct (Hdef x) as [sx ->]; [left|]. simpl. apply IH.
  intros v Hv. apply Hdef. by right.
Qed.

(** X7: when every requested variable is defined, "num_people" is
    requested and CONTROLS lists no "count" bin for it, the builder raises
    [ValueError] (the removal of "count" finds nothing to remove). *)
Theorem count_bin_required self mv s :
  is_all mv = true \/ (forall v, v ∈ iterate mv -> is_Some (CONTROLS !! v)) ->
  is_requested mv "num_people" ->
  CONTROLS !! "num_people" = Some s -> "count" ∉ s ->
  _comparison_dataframe CONTROLS self mv = Raise ValueError.
Proof.
  intros Hdef Hreq Hs Hcount.
  assert (exists vars, requested CONTROLS mv = Ok vars) as [vars Hvars].
  { unfold requested. destruct (is_all mv) eqn:E; [eauto|].
    destruct Hdef as [?|Hdef]; [done|]. by apply requested_loop_defined. }
  unfold _comparison_dataframe. rewrite Hvars. simpl.
  assert (vars !! "num_people" = Some (elements s)) as Hbins
    by (apply (requested_lookup _ _ _ Hvars); eauto).
  unfold drop_count. rewrite Hbins.
  assert (list_remove "count" (elements s) = Raise ValueError) as ->;
    [|reflexivity].
  assert ("count" ∉ elements s) as Hnot by (by rewrite elem_of_elements).
  clear -Hnot. induction (elements s) as [|y l IH]; [done|].
  apply not_elem_of_cons in Hnot as [Hne Hnot]. cbn [list_remove].
  apply String.eqb_neq in Hne. rewrite Hne, IH by done. reflexivity.
Qed.

(** X8: a returned comparison table with at least one row has a row of
    "age", "num_people" or "num_vehicles": a table of incomplete rows
    alone is never returned. *)
Theorem supported_row_present self mv t :
  _comparison_dataframe CONTROLS self mv = Ok t ->
  t_rows t <> [] ->
  exists v b, (v, b) ∈ (t_rows t).*1 /\
    (v = "age" \/ v = "num_people" \/ v = "num_vehicles").
Proof.
  intros Hc Hne. destruct (comparison_dict _ _ _ Hc) as (d & Hnd & Hpd & Hrow).
  pose proof (pd_DataFrame_Ok _ _ _ Hpd) as [_ Hrows].
  unfold pd_DataFrame in Hpd. destruct d as [|kv d]; [by rewrite Hrows in Hne|].
  destruct (Nat.eqb _ _) eqn:E; [|discriminate]. apply Nat.eqb_eq in E.
  assert (In 3 (map (fun kv => length kv.2) (kv :: d))) as Hin.
  { change 3 with (length ["pums"; "gen"; "marginal"]). rewrite <- E.
    by apply list_max_attained. }
  apply in_map_iff in Hin as ([[v b] r] & Hlen & Hin).
  apply list_elem_of_In in Hin. simpl in Hlen.
  exists v, b. split.
  - rewrite Hrows, od_keys_map. apply list_elem_of_fmap. by exists (v, b, r).
  - specialize (Hrow _ _ Hin). simpl in Hrow.
    destruct (decide (v = "age")) as [|H1]; [auto|].
    destruct (decide (v = "num_people")) as [|H2]; [auto|].
    destruct (decide (v = "num_vehicles")) as [|H3]; [auto|].
    destruct (row_of_other _ _ _ _ H1 H2 H3 Hrow) as (m & _ & ->).
    discriminate.
Qed.

Lemma requested_row self mv t v b :
  _comparison_dataframe CONTROLS self mv = Ok t ->
  (v, b) ∈ (t_rows t).*1 -> exists r, row_of self v b = Ok r.
Proof.
  intros Hc Hin. apply od_get_of_key in Hin as (r & Hr).
  destruct (comparison_row _ _ _ _ _ _ Hc Hr) as (r0 & Hrow & _). eauto.
Qed.

(** X9: a table is returned only if, for each of its rows of a supported
    variable, the survey frame has the variable's column and the weight
    column, the generated frame has the variable's column, and the marginal
    totals have the column <variable>_<bin>. *)
Theorem missing_data_column self mv t v b :
  _comparison_dataframe CONTROLS self mv = Ok t ->
  (v, b) ∈ (t_rows t).*1 ->
  v = "age" \/ v = "num_people" \/ v = "num_vehicles" ->
  is_Some (position v (columns (survey_of self v))) /\
  is_Some (position (weight_of v) (columns (survey_of self v))) /\
  is_Some (position v (columns (generated_of self v))) /\
  is_Some (position (v ++ "_" ++ b) (columns (marginals self))).
Proof.
  intros Hc Hin Hv. destruct (requested_row _ _ _ _ _ Hc Hin) as (r & Hrow).
  destruct (row_of_known _ _ _ _ Hv Hrow) as (s & g & m & Hs & Hg & Hm & _).
  unfold weight_sum in Hs. inv_bind Hs. inv_bind Hs.
  unfold matching_count in Hg. inv_bind Hg. inv_bind Hm.
  unfold getitem in Ha, Ha1, Ha2. unfold getattr in Ha0. simpl in Ha0.
  repeat split.
  - destruct (position v (columns (survey_of self v))); [eauto|discriminate].
  - destruct (position (weight_of v) _); [eauto|discriminate].
  - destruct (position v (columns (generated_of self v)));
      [eauto|discriminate].
  - destruct (position (v ++ "_" ++ b) _); [eauto|discriminate].
Qed.

End IndexOfTheTable.

(** ** The batch runner and the files it reads *)

Section BatchFacts.
Context {num : Type} `{Number num}.
Variable CONTROLS : gmap string (gset string).
Implicit Types (read_csv : string -> result (DataFrame num)).
Implicit Types (d : list (key * list num)) (sp : key).

Lemma run_one_Ok read_csv data_dir variables statistic verbose d sp d' :
  run_one CONTROLS read_csv data_dir variables statistic verbose d sp = Ok d' ->
  exists accuracy bs,
    from_data_dir read_csv sp.1 sp.2 data_dir = Ok accuracy /\
    chosen_statistic CONTROLS statistic accuracy variables verbose = Ok bs /\
    d' = od_set key_eqb sp [bs.1; bs.2] d.
Proof.
  unfold run_one. intros Hr. inv_bind Hr. inv_bind Hr. injection Hr as <-.
  exists a, a0. auto.
Qed.

Lemma run_loop_keys read_csv data_dir variables statistic verbose pairs d d' :
  for_each (run_one CONTROLS read_csv data_dir variables statistic verbose)
           pairs d = Ok d' ->
  (NoDup d.*1 -> NoDup d'.*1) /\
  (forall sp, sp ∈ d'.*1 <-> sp ∈ d.*1 \/ sp ∈ pairs).
Proof.
  revert d. induction pairs as [|p pairs IH]; simpl; intros d Hf.
  - injection Hf as <-. split; [done|]. intros sp.
    rewrite elem_of_nil. tauto.
  - inv_bind Hf. apply run_one_Ok in Ha as (acc & bs & _ & _ & ->).
    destruct (IH _ Hf) as [Hnd Hkeys]. split.
    + intros Hd. by apply Hnd, od_set_NoDup.
    + intros sp. rewrite Hkeys, od_set_keys, elem_of_cons. tauto.
Qed.

Lemma run_loop_values read_csv data_dir variables statistic verbose pairs d d' :
  for_each (run_one CONTROLS read_csv data_dir variables statistic verbose)
           pairs d = Ok d' ->
  forall sp r, od_get key_eqb sp d' = Some r ->
    od_get key_eqb sp d = Some r \/
    exists accuracy bs,
      from_data_dir read_csv sp.1 sp.2 data_dir = Ok accuracy /\
      chosen_statistic CONTROLS statistic accuracy variables verbose = Ok bs /\
      r = [bs.1; bs.2].
Proof.
  revert d. induction pairs as [|p pairs IH]; simpl; intros d Hf sp r Hr.
  - injection Hf as <-. auto.
  - inv_bind Hf. apply run_one_Ok in Ha as (acc & bs & Hacc & Hbs & ->).
    destruct (IH _ Hf sp r Hr) as [Hg|?]; [|auto].
    rewrite od_get_set in Hg. destruct (key_eqb sp p) eqn:E; [|auto].
    apply key_eqb_eq in E. subst p. injection Hg as <-. right. eauto.
Qed.

Lemma run_loop_loaded read_csv data_dir variables statistic verbose pairs d d' :
  for_each (run_one CONTROLS read_csv data_dir variables statistic verbose)
           pairs d = Ok d' ->
  forall sp, sp ∈ pairs ->
    exists accuracy, from_data_dir read_csv sp.1 sp.2 data_dir = Ok accuracy.
Proof.
  revert d. induction pairs as [|p pairs IH]; simpl; intros d Hf sp Hin.
  - by apply elem_of_nil in Hin.
  - inv_bind Hf. apply run_one_Ok in Ha as (acc & bs & Hacc & _ & _).
    apply elem_of_cons in Hin as [->|Hin]; eauto.
Qed.

Lemma from_data_dir_reads read_csv state puma data_dir accuracy :
  from_data_dir read_csv state puma data_dir = Ok accuracy ->
  forall path, path ∈ data_files state puma data_dir ->
    exists df, read_csv path = Ok df.
Proof.
  unfold from_data_dir, from_csvs. intros Hl.
  inv_bind Hl. inv_bind Hl. inv_bind Hl. inv_bind Hl. inv_bind Hl.
  intros path Hin. unfold data_files in Hin. cbn [map] in Hin.
  repeat (apply elem_of_cons in Hin as [->|Hin]; [eauto|]).
  by apply elem_of_nil in Hin.
Qed.

Lemma from_data_dir_ext read_csv read_csv' state puma data_dir :
  (forall path, path ∈ data_files state puma data_dir ->
     read_csv path = read_csv' path) ->
  from_data_dir read_csv state puma data_dir =
  from_data_dir read_csv' state puma data_dir.
Proof.
  intros Hext. unfold from_data_dir, from_csvs.
  rewrite !Hext; [reflexivity|..]; unfold data_files; cbn [map];
    repeat first [by left | right].
Qed.

Lemma for_each_ext {A S} (f g : S -> A -> result S) (xs : list A) (s : S) :
  (forall s x, x ∈ xs -> f s x = g s x) ->
  for_each f xs s = for_each g xs s.
Proof.
  revert s. induction xs as [|x xs IH]; simpl; intros s Hext; [done|].
  rewrite (Hext s x) by left. destruct (g s x) as [s'|e]; simpl; [|done].
  apply IH. intros s0 y Hy. apply Hext. by right.
Qed.

(** X10: a summary [run_pumas] returns has one row for each sub-area of
    the mapping and no other, none twice, and the row of a sub-area holds
    the pair the selected statistic returns on the data loaded for it. *)
Theorem summary_rows read_csv state_puma data_dir variables statistic
  verbose t :
  run_pumas CONTROLS read_csv state_puma data_dir variables statistic verbose
    = Ok t ->
  NoDup (t_rows t).*1 /\
  (forall sp, sp ∈ (t_rows t).*1 <-> sp ∈ sub_areas state_puma) /\
  (forall sp r, od_get key_eqb sp (t_rows t) = Some r ->
     exists accuracy bs,
       from_data_dir read_csv sp.1 sp.2 data_dir = Ok accuracy /\
       chosen_statistic CONTROLS statistic accuracy variables verbose
         = Ok bs /\
       r = [bs.1; bs.2]).
Proof.
  intros Hr. unfold run_pumas in Hr. inv_bind Hr.
  apply pd_DataFrame_Ok in Hr as [_ Hrows].
  destruct (run_loop_keys _ _ _ _ _ _ _ _ Ha) as [Hnd Hkeys].
  rewrite Hrows, od_keys_map. split; [apply Hnd; constructor|]. split.
  - intros sp. rewrite Hkeys, elem_of_nil. tauto.
  - intros sp r Hg. rewrite od_get_map in Hg.
    destruct (od_get key_eqb sp a) as [r0|] eqn:Hg0; [|discriminate].
    injection Hg as <-.
    destruct (run_loop_values _ _ _ _ _ _ _ _ Ha sp r0 Hg0)
      as [?|(acc & bs & Hacc & Hbs & ->)]; [discriminate|].
    exists acc, bs. auto.
Qed.

(** X11: if one of the five files of any sub-area of the mapping cannot
    be read, [run_pumas] returns no summary. *)
Theorem unreadable_file read_csv state_puma data_dir variables statistic
  verbose sp path e :
  sp ∈ sub_areas state_puma ->
  path ∈ data_files sp.1 sp.2 data_dir ->
  read_csv path = Raise e ->
  forall t, run_pumas CONTROLS read_csv state_puma data_dir variables
                      statistic verbose <> Ok t.
Proof.
  intros Hsp Hpath He t Hr. unfold run_pumas in Hr. inv_bind Hr.
  destruct (run_loop_loaded _ _ _ _ _ _ _ _ Ha sp Hsp) as [acc Hacc].
  destruct (from_data_dir_reads _ _ _ _ _ Hacc path Hpath) as [df Hdf].
  congruence.
Qed.

(** X12: [run_pumas] depends on the file system only through the five
    files of the sub-areas of the mapping. *)
Theorem reads_only_listed_files read_csv read_csv' state_puma data_dir
  variables statistic verbose :
  (forall sp path, sp ∈ sub_areas state_puma ->
     path ∈ data_files sp.1 sp.2 data_dir ->
     read_csv path = read_csv' path) ->
  run_pumas CONTROLS read_csv state_puma data_dir variables statistic verbose
  = run_pumas CONTROLS read_csv' state_puma data_dir variables statistic
              verbose.
Proof.
  intros Hext. unfold run_pumas. f_equal. apply for_each_ext.
  intros d sp Hsp. unfold run_one.
  rewrite (from_data_dir_ext read_csv read_csv'); [reflexivity|].
  intros path Hpath. by apply (Hext sp).
Qed.

End BatchFacts.

(** ** The statistics compared *)

Section StatisticsCompared.
Local Open Scope R_scope.
Implicit Types (rws : list (key * counts)) (h : key * counts -> R).

Lemma rmse_of_table rws :
  rws <> [] ->
  root_mean_squared_error_of (comparison_table rws) =
  Ok (Fin (rmse survey_count rws), Fin (rmse generated_count rws)).
Proof.
  intros Hne. unfold root_mean_squared_error_of.
  rewrite series_pums, series_marginal, series_gen. simpl.
  rewrite !zip_sub_Fin, !(root_mean_square _ _ Hne). reflexivity.
Qed.

Lemma mrse_of_table rws :
  rws <> [] ->
  mean_root_squared_error_of (comparison_table rws) =
  Ok (Fin (mean_abs_diff survey_count rws),
      Fin (mean_abs_diff generated_count rws)).
Proof.
  intros Hne.
  unfold mean_root_squared_error_of, mean_root_squared_error_series.
  rewrite series_pums, series_marginal, series_gen. simpl.
  rewrite !(root_squared_Fin _ (fun kc => marginal_count kc.2)).
  rewrite !mean_Fin by (destruct rws; [done|discriminate]). reflexivity.
Qed.

(** Cauchy-Schwarz against the constant vector: the square of a sum of
    absolute values is at most the length times the sum of squares. *)
Lemma sum_abs_squared (xs : list R) :
  0 <= Rsum (map Rabs xs) /\ 0 <= Rsum (map (fun x => x ^ 2) xs) /\
  Rsum (map Rabs xs) ^ 2 <=
  INR (length xs) * Rsum (map (fun x => x ^ 2) xs).
Proof.
  induction xs as [|x xs (HA & HQ & IH)].
  - simpl. lra.
  - cbn [map length]. rewrite !Rsum_cons, S_INR.
    set (A := Rsum (map Rabs xs)) in *.
    set (Q := Rsum (map (fun x => x ^ 2) xs)) in *.
    set (n := INR (length xs)) in *.
    assert (0 <= n) as Hn by apply pos_INR.
    pose proof (Rabs_pos x) as Ha. pose proof (pow2_abs x) as Hx.
    set (a := Rabs x) in *. rewrite <- Hx.
    split; [lra|]. split; [nra|].
    assert (2 * a * A <= n * a ^ 2 + Q) as Hmix.
    { destruct (length xs) as [|m] eqn:El.
      - apply length_zero_iff_nil in El. subst xs. subst A Q n. simpl. lra.
      - assert (1 <= n) as Hn1.
        { subst n. rewrite S_INR. pose proof (pos_INR m). lra. }
        apply (Rmult_le_reg_l n); [lra|].
        pose proof (pow2_ge_0 (n * a - A)). nra. }
    nra.
Qed.

Lemma mean_abs_le_rmse h rws :
  rws <> [] ->
  Rmean (map (fun kc => Rabs (h kc)) rws) <=
  R_sqrt.sqrt (Rmean (map (fun kc => h kc ^ 2) rws)).
Proof.
  intros Hne.
  destruct (sum_abs_squared (map h rws)) as (HA & HQ & Hcs).
  rewrite !map_map, length_map in *. unfold Rmean. rewrite !length_map.
  set (A := Rsum (map (fun kc => Rabs (h kc)) rws)) in *.
  set (Q := Rsum (map (fun kc => h kc ^ 2) rws)) in *.
  assert (0 < INR (length rws)) as Hn.
  { destruct rws; [done|]. apply lt_0_INR. simpl. lia. }
  set (n := INR (length rws)) in *.
  assert (0 <= A / n) as Hmean by (apply Rle_mult_inv_pos; lra).
  rewrite <- (sqrt_pow2 (A / n)) by done.
  apply sqrt_le_1_alt.
  apply (Rmult_le_reg_r (n ^ 2)); [nra|].
  replace ((A / n) ^ 2 * n ^ 2) with (A ^ 2) by (field; lra).
  replace (Q / n * n ^ 2) with (n * Q) by (field; lra).
  exact Hcs.
Qed.

(** X13: on a non-empty comparison table each component of
    [mean_root_squared_error] is at most the same component of
    [root_mean_squared_error]. *)
Theorem mean_root_le_root_mean rws :
  rws <> [] ->
  exists b1 s1 b2 s2,
    mean_root_squared_error_of (comparison_table rws) = Ok (Fin b1, Fin s1) /\
    root_mean_squared_error_of (comparison_table rws) = Ok (Fin b2, Fin s2) /\
    b1 <= b2 /\ s1 <= s2.
Proof.
  intros Hne.
  exists (mean_abs_diff survey_count rws), (mean_abs_diff generated_count rws),
         (rmse survey_count rws), (rmse generated_count rws).
  split; [by apply mrse_of_table|]. split; [by apply rmse_of_table|].
  unfold mean_abs_diff, rmse. split.
  - apply (mean_abs_le_rmse
             (fun kc => survey_count kc.2 - marginal_count kc.2) rws Hne).
  - apply (mean_abs_le_rmse
             (fun kc => generated_count kc.2 - marginal_count kc.2) rws Hne).
Qed.

Lemma Rsum_zero_iff (xs : list R) :
  Forall (Rle 0) xs -> (Rsum xs = 0 <-> Forall (fun x => x = 0) xs).
Proof.
  induction 1 as [|x xs Hx Hxs IH].
  - split; [constructor|reflexivity].
  - rewrite Rsum_cons. pose proof (Rsum_nonneg xs Hxs) as Hs. split.
    + intros Hz. constructor; [lra|]. apply IH. lra.
    + intros Hall. apply Forall_cons in Hall as [-> Hall].
      apply IH in Hall. lra.
Qed.

Lemma Rmean_zero_iff (xs : list R) :
  xs <> [] -> Forall (Rle 0) xs ->
  (Rmean xs = 0 <-> Forall (fun x => x = 0) xs).
Proof.
  intros Hne Hpos. rewrite <- (Rsum_zero_iff xs Hpos). unfold Rmean.
  assert (0 < INR (length xs)) as Hn.
  { destruct xs; [done|]. apply lt_0_INR. simpl. lia. }
  split.
  - intros Hz. apply (Rmult_eq_reg_r (/ INR (length xs))).
    + rewrite Rmult_0_l. exact Hz.
    + apply Rinv_neq_0_compat. lra.
  - intros ->. unfold Rdiv. apply Rmult_0_l.
Qed.

Lemma rmse_zero_iff (x : counts -> R) rws :
  rws <> [] ->
  (rmse x rws = 0 <->
   Forall (fun kc => x kc.2 = marginal_count kc.2) rws).
Proof.
  intros Hne. unfold rmse.
  pose proof (squares_nonneg (fun kc => x kc.2 - marginal_count kc.2) rws)
    as Hsq.
  assert (map (fun kc => (x kc.2 - marginal_count kc.2) ^ 2) rws <> [])
    as Hne' by (destruct rws; [done|discriminate]).
  pose proof (Rmean_nonneg _ Hne' Hsq) as Hmean.
  split.
  - intros Hz. apply sqrt_eq_0 in Hz; [|done].
    apply (Rmean_zero_iff _ Hne' Hsq) in Hz.
    rewrite Forall_forall in Hz. apply Forall_forall. intros kc Hkc.
    assert ((x kc.2 - marginal_count kc.2) ^ 2 = 0) as Hk.
    { apply Hz. apply list_elem_of_In, in_map_iff. exists kc.
      split; [done|]. by apply list_elem_of_In. }
    simpl in Hk. rewrite Rmult_1_r in Hk. apply Rsqr_0_uniq in Hk. lra.
  - intros Hall.
    assert (Rmean (map (fun kc => (x kc.2 - marginal_count kc.2) ^ 2) rws)
            = 0) as ->; [|apply sqrt_0].
    apply (Rmean_zero_iff _ Hne' Hsq). apply Forall_forall. intros y Hy.
    apply list_elem_of_In, in_map_iff in Hy as (kc & <- & Hkc).
    rewrite Forall_forall in Hall.
    rewrite (Hall kc) by (by apply list_elem_of_In). ring.
Qed.

(** X14: on a non-empty comparison table a component of
    [root_mean_squared_error] is 0 exactly when the compared count equals
    the marginal count in every row. *)
Theorem zero_rmse_iff_match rws :
  rws <> [] ->
  exists b s,
    root_mean_squared_error_of (comparison_table rws) = Ok (Fin b, Fin s) /\
    (b = 0 <->
     Forall (fun kc => survey_count kc.2 = marginal_count kc.2) rws) /\
    (s = 0 <->
     Forall (fun kc => generated_count kc.2 = marginal_count kc.2) rws).
Proof.
  intros Hne. exists (rmse survey_count rws), (rmse generated_count rws).
  split; [by apply rmse_of_table|].
  split; by apply rmse_zero_iff.
Qed.

End StatisticsCompared.

(** ** Bounds of the percentage error, and the order of the rows *)

Section PercentageBounds.
Local Open Scope R_scope.
Implicit Types (rws : list (key * counts)) (h : key * counts -> R).

Lemma pct_bounds (a b : R) :
  0 <= a -> 0 <= b -> 0 < a + b ->
  0 <= Rabs (a - b) / ((a + b) / 2) <= 2.
Proof.
  intros Ha Hb Hab.
  assert (Rabs (a - b) <= a + b) as Habs
    by (unfold Rabs; destruct (Rcase_abs (a - b)); lra).
  pose proof (Rabs_pos (a - b)) as Hpos. split.
  - apply Rle_mult_inv_pos; lra.
  - apply (Rmult_le_reg_r ((a + b) / 2)); [lra|].
    replace (Rabs (a - b) / ((a + b) / 2) * ((a + b) / 2))
      with (Rabs (a - b)) by (field; lra).
    lra.
Qed.

Lemma zip_pct_Fin h1 h2 rws :
  Forall (fun kc => h1 kc + h2 kc <> 0) rws ->
  zip_with pct_error (map (fun kc => Fin (h1 kc)) rws)
                     (map (fun kc => Fin (h2 kc)) rws) =
  map Fin (map (fun kc => Rabs (h1 kc - h2 kc) / ((h1 kc + h2 kc) / 2)) rws).
Proof.
  induction 1 as [|kc rws Hkc _ IH]; [done|].
  cbn [map zip_with]. rewrite IH, (pct_error_Fin _ _ Hkc). reflexivity.
Qed.

Lemma Rsum_bounds (lo hi : R) (xs : list R) :
  Forall (fun x => lo <= x <= hi) xs ->
  INR (length xs) * lo <= Rsum xs <= INR (length xs) * hi.
Proof.
  induction 1 as [|x xs Hx _ IH].
  - simpl. lra.
  - cbn [length]. rewrite Rsum_cons, S_INR. lra.
Qed.

Lemma Rmean_bounds (lo hi : R) (xs : list R) :
  xs <> [] -> Forall (fun x => lo <= x <= hi) xs -> lo <= Rmean xs <= hi.
Proof.
  intros Hne Hxs. pose proof (Rsum_bounds lo hi xs Hxs) as [Hlo Hhi].
  assert (0 < INR (length xs)) as Hn.
  { destruct xs; [done|]. apply lt_0_INR. simpl. lia. }
  unfold Rmean. split.
  - apply (Rmult_le_reg_r (INR (length xs))); [done|].
    replace (Rsum xs / INR (length xs) * INR (length xs)) with (Rsum xs)
      by (field; lra).
    lra.
  - apply (Rmult_le_reg_r (INR (length xs))); [done|].
    replace (Rsum xs / INR (length xs) * INR (length xs)) with (Rsum xs)
      by (field; lra).
    lra.
Qed.

Lemma mean_pct_bounds h1 h2 rws :
  rws <> [] ->
  Forall (fun kc => 0 <= h1 kc /\ 0 < h2 kc) rws ->
  exists e,
    mean (zip_with pct_error (map (fun kc => Fin (h1 kc)) rws)
                             (map (fun kc => Fin (h2 kc)) rws)) = Fin e /\
    0 <= e <= 2.
Proof.
  intros Hne Hall.
  rewrite zip_pct_Fin
    by (eapply Forall_impl; [exact Hall|]; simpl; intros kc [? ?]; lra).
  rewrite mean_Fin by (destruct rws; [done|discriminate]).
  eexists. split; [reflexivity|].
  apply Rmean_bounds; [destruct rws; [done|discriminate]|].
  apply Forall_forall. intros y Hy.
  apply list_elem_of_In, in_map_iff in Hy as (kc & <- & Hkc).
  rewrite Forall_forall in Hall.
  destruct (Hall kc) as [? ?]; [by apply list_elem_of_In|].
  apply pct_bounds; lra.
Qed.

(** X15: on a non-empty comparison table with survey and generated
    counts not below zero and marginal counts above zero, both components
    of [mean_absolute_pct_error] lie between 0 and 2. *)
Theorem mean_absolute_pct_error_bounds rws :
  rws <> [] ->
  Forall (fun kc => 0 <= survey_count kc.2 /\ 0 <= generated_count kc.2 /\
                    0 < marginal_count kc.2) rws ->
  exists b s,
    mean_absolute_pct_error_of (comparison_table rws) = Ok (Fin b, Fin s) /\
    0 <= b <= 2 /\ 0 <= s <= 2.
Proof.
  intros Hne Hall.
  destruct (mean_pct_bounds (fun kc => survey_count kc.2)
              (fun kc => marginal_count kc.2) rws Hne) as (b & Hb & Hb2).
  { eapply Forall_impl; [exact Hall|]. simpl. tauto. }
  destruct (mean_pct_bounds (fun kc => generated_count kc.2)
              (fun kc => marginal_count kc.2) rws Hne) as (s & Hs & Hs2).
  { eapply Forall_impl; [exact Hall|]. simpl. tauto. }
  exists b, s.
  unfold mean_absolute_pct_error_of, mean_absolute_pct_error_series.
  rewrite series_pums, series_marginal, series_gen. simpl.
  rewrite Hb, Hs. auto.
Qed.

End PercentageBounds.

Section RowOrder.
Local Open Scope R_scope.

Lemma plus_comm (x y : xreal) : XReal.plus x y = XReal.plus y x.
Proof.
  destruct x, y; simpl; try reflexivity. by rewrite Rplus_comm.
Qed.

Lemma plus_assoc (x y z : xreal) :
  XReal.plus (XReal.plus x y) z = XReal.plus x (XReal.plus y z).
Proof.
  destruct x, y, z; simpl; try reflexivity. by rewrite Rplus_assoc.
Qed.

Lemma plus_zero_r (x : xreal) : XReal.plus x (Fin 0) = x.
Proof. destruct x; simpl; try reflexivity. by rewrite Rplus_0_r. Qed.

Lemma plus_zero_l (x : xreal) : XReal.plus (Fin 0) x = x.
Proof. by rewrite plus_comm, plus_zero_r. Qed.

Lemma fold_left_plus (xs : list xreal) (a : xreal) :
  fold_left XReal.plus xs a = XReal.plus a (fold_right XReal.plus (Fin 0) xs).
Proof.
  revert a. induction xs as [|x xs IH]; simpl; intros a.
  - by rewrite plus_zero_r.
  - by rewrite IH, plus_assoc.
Qed.

Lemma reduce_add_fold (xs : list xreal) :
  reduce_add xs = fold_right XReal.plus (Fin 0) xs.
Proof.
  destruct xs as [|x xs]; [reflexivity|]. unfold reduce_add.
  apply (fold_left_plus xs x).
Qed.

Lemma fold_plus_perm (xs ys : list xreal) :
  Permutation xs ys ->
  fold_right XReal.plus (Fin 0) xs = fold_right XReal.plus (Fin 0) ys.
Proof.
  induction 1 as [|x xs ys _ IH|x y xs|xs ys zs _ IH1 _ IH2]; simpl.
  - reflexivity.
  - by rewrite IH.
  - by rewrite <- !plus_assoc, (plus_comm y x).
  - by rewrite IH1.
Qed.

Lemma filter_perm {A} (p : A -> bool) (xs ys : list A) :
  Permutation xs ys -> Permutation (List.filter p xs) (List.filter p ys).
Proof.
  induction 1 as [|x xs ys _ IH|x y xs|xs ys zs _ IH1 _ IH2]; simpl.
  - constructor.
  - destruct (p x); [by constructor|done].
  - destruct (p x), (p y); try reflexivity. constructor.
  - by transitivity (List.filter p ys).
Qed.

Lemma mean_perm (xs ys : list xreal) :
  Permutation xs ys -> mean xs = mean ys.
Proof.
  intros Hp. unfold mean.
  rewrite (Permutation_length (filter_perm _ _ _ Hp)).
  assert (nansum xs = nansum ys) as ->; [|reflexivity].
  unfold nansum. rewrite !reduce_add_fold.
  by apply fold_plus_perm, Permutation_map.
Qed.

Lemma mean_zip_perm (f : xreal -> xreal -> xreal) (g : xreal -> xreal)
  (i j : nat) (rows rows' : list (key * list xreal)) :
  Permutation rows rows' ->
  mean (map g (zip_with f (map (fun kv => nth i kv.2 nan) rows)
                          (map (fun kv => nth j kv.2 nan) rows))) =
  mean (map g (zip_with f (map (fun kv => nth i kv.2 nan) rows')
                          (map (fun kv => nth j kv.2 nan) rows'))).
Proof.
  intros Hp. rewrite !zip_with_map, !map_map.
  by apply mean_perm, Permutation_map.
Qed.

Lemma mean_zip_perm0 (f : xreal -> xreal -> xreal)
  (i j : nat) (rows rows' : list (key * list xreal)) :
  Permutation rows rows' ->
  mean (zip_with f (map (fun kv => nth i kv.2 nan) rows)
                   (map (fun kv => nth j kv.2 nan) rows)) =
  mean (zip_with f (map (fun kv => nth i kv.2 nan) rows')
                   (map (fun kv => nth j kv.2 nan) rows')).
Proof.
  intros Hp. rewrite !zip_with_map. by apply mean_perm, Permutation_map.
Qed.

(** X16: the three statistics do not depend on the order of the rows of
    the table (the order a dictionary happens to be iterated in). *)
Theorem statistics_ignore_row_order (names : list string)
  (rows rows' : list (key * list xreal)) :
  Permutation rows rows' ->
  root_mean_squared_error_of {| t_columns := names; t_rows := rows |} =
    root_mean_squared_error_of {| t_columns := names; t_rows := rows' |} /\
  mean_root_squared_error_of {| t_columns := names; t_rows := rows |} =
    mean_root_squared_error_of {| t_columns := names; t_rows := rows' |} /\
  mean_absolute_pct_error_of {| t_columns := names; t_rows := rows |} =
    mean_absolute_pct_error_of {| t_columns := names; t_rows := rows' |}.
Proof.
  intros Hp.
  pose proof (fun f i j => mean_zip_perm0 f i j _ _ Hp) as Hid.
  pose proof (fun f g i j => mean_zip_perm f g i j _ _ Hp) as Hg.
  unfold root_mean_squared_error_of, mean_root_squared_error_of,
    mean_absolute_pct_error_of, mean_root_squared_error_series,
    mean_absolute_pct_error_series, root_squared, series.
  cbn [t_columns t_rows].
  destruct (position "pums" names) as [p|]; [|done].
  destruct (position "marginal" names) as [m|]; [|done].
  destruct (position "gen" names) as [g|]; [|done].
  cbn [bind fst snd].
  rewrite (Hg sub square p m), (Hg sub square g m).
  rewrite (Hg sub (fun x => sqroot (square x)) p m),
          (Hg sub (fun x => sqroot (square x)) g m).
  rewrite (Hid pct_error p m), (Hid pct_error g m).
  done.
Qed.

End RowOrder.

(** ** Incomplete rows *)

Section IncompleteRows.
Local Open Scope R_scope.

Lemma nansum_filter (xs : list xreal) :
  nansum xs = nansum (List.filter (fun x => negb (isnan x)) xs).
Proof.
  unfold nansum. rewrite !reduce_add_fold.
  induction xs as [|x xs IH]; [reflexivity|].
  cbn [map List.filter fold_right]. destruct (isnan x) eqn:E.
  - cbn [negb]. rewrite IH. apply plus_zero_l.
  - cbn [negb map fold_right]. by rewrite E, IH.
Qed.

Lemma filter_idem {A} (p : A -> bool) (l : list A) :
  List.filter p (List.filter p l) = List.filter p l.
Proof.
  induction l as [|x l IH]; simpl; [done|].
  destruct (p x) eqn:E; simpl; [|done]. by rewrite E, IH.
Qed.

Lemma mean_filter (xs : list xreal) :
  mean xs = mean (List.filter (fun x => negb (isnan x)) xs).
Proof.
  unfold mean. by rewrite filter_idem, <- nansum_filter.
Qed.

(** A per-row value that is missing on the incomplete rows leaves the mean
    to the complete ones. *)
Lemma mean_complete (G : list xreal -> xreal)
  (es : list (key * (counts + R))) :
  (forall m, G (table_row (inr m)) = NaN) ->
  mean (map (fun ke => G (table_row ke.2)) es) =
  mean (map (fun kc => G (table_row (inl kc.2))) (complete_rows es)).
Proof.
  intros Hgap.
  rewrite mean_filter, (mean_filter (map _ (complete_rows es))). f_equal.
  induction es as [|[k [c|m]] es IH]; [reflexivity| |].
  - cbn [complete_rows map List.filter]. cbn [snd]. by rewrite IH.
  - cbn [complete_rows map List.filter]. cbn [snd]. by rewrite Hgap.
Qed.

Lemma gapped_series (i : nat) (name : string)
  (es : list (key * (counts + R))) :
  position name ["pums"; "gen"; "marginal"] = Some i ->
  series (gapped_table es) name =
  Ok (map (fun ke => nth i (table_row ke.2) nan) es).
Proof.
  intros Hp. rewrite (series_of_rows (gapped_table es) i name Hp).
  unfold gapped_table. cbn [t_rows]. by rewrite map_map.
Qed.

Lemma complete_series (i : nat) (name : string) (rws : list (key * counts)) :
  position name ["pums"; "gen"; "marginal"] = Some i ->
  series (comparison_table rws) name =
  Ok (map (fun kc => nth i (table_row (inl kc.2)) nan) rws).
Proof.
  intros Hp. rewrite (series_of_rows (comparison_table rws) i name Hp).
  unfold comparison_table. cbn [t_rows]. by rewrite map_map.
Qed.

(** X17: rows holding only a first entry (those of variables outside the
    three) do not enter the statistics: each statistic of the table is the
    statistic of its complete rows. *)
Theorem incomplete_rows_ignored (es : list (key * (counts + R))) :
  root_mean_squared_error_of (gapped_table es) =
    root_mean_squared_error_of (comparison_table (complete_rows es)) /\
  mean_root_squared_error_of (gapped_table es) =
    mean_root_squared_error_of (comparison_table (complete_rows es)) /\
  mean_absolute_pct_error_of (gapped_table es) =
    mean_absolute_pct_error_of (comparison_table (complete_rows es)).
Proof.
  unfold root_mean_squared_error_of, mean_root_squared_error_of,
    mean_absolute_pct_error_of, mean_root_squared_error_series,
    mean_absolute_pct_error_series, root_squared.
  rewrite !(gapped_series 0 "pums"), !(gapped_series 2 "marginal"),
    !(gapped_series 1 "gen") by reflexivity.
  rewrite !(complete_series 0 "pums"), !(complete_series 2 "marginal"),
    !(complete_series 1 "gen") by reflexivity.
  cbn [bind fst snd]. rewrite !zip_with_map, !map_map.
  pose proof (fun G H => mean_complete G es H) as Hm.
  rewrite (Hm (fun r => square (sub (nth 0 r nan) (nth 2 r nan))))
    by reflexivity.
  rewrite (Hm (fun r => square (sub (nth 1 r nan) (nth 2 r nan))))
    by reflexivity.
  rewrite (Hm (fun r => sqroot (square (sub (nth 0 r nan) (nth 2 r nan)))))
    by reflexivity.
  rewrite (Hm (fun r => sqroot (square (sub (nth 1 r nan) (nth 2 r nan)))))
    by reflexivity.
  rewrite (Hm (fun r => pct_error (nth 0 r nan) (nth 2 r nan)))
    by reflexivity.
  rewrite (Hm (fun r => pct_error (nth 1 r nan) (nth 2 r nan)))
    by reflexivity.
  done.
Qed.

End IncompleteRows.

(** ** Signs of the counts, and bare strings *)

Section SignsOfCounts.
Local Open Scope R_scope.
Variable CONTROLS : gmap string (gset string).
Implicit Types (df : DataFrame xreal) (self : Accuracy xreal).

Lemma plus_nonneg (x y : xreal) :
  nonneg x -> nonneg y -> x <> NaN -> y <> NaN ->
  nonneg (XReal.plus x y) /\ XReal.plus x y <> NaN.
Proof.
  destruct x, y; simpl; try done; intros; split; try done; lra.
Qed.

Lemma nansum_nonneg (xs : list xreal) :
  Forall nonneg xs -> nonneg (nansum xs).
Proof.
  intros Hxs. unfold nansum. rewrite reduce_add_fold.
  cut (nonneg (fold_right XReal.plus (Fin 0)
                 (map (fun x => if isnan x then zero else x) xs)) /\
       fold_right XReal.plus (Fin 0)
                 (map (fun x => if isnan x then zero else x) xs) <> NaN);
    [tauto|].
  induction Hxs as [|x xs Hx _ [IH1 IH2]];
    [split; [simpl; lra | discriminate]|].
  cbn [map fold_right]. apply plus_nonneg; try done.
  - destruct x; simpl in *; try done; lra.
  - destruct x; done.
Qed.

Lemma keep_Forall {A} (P : A -> Prop) (mask : list bool) (l : list A) :
  Forall P l -> Forall P (keep mask l).
Proof.
  intros Hl. revert mask. induction Hl as [|x l Hx _ IH]; intros [|b mask];
    simpl; try constructor.
  destruct b; [constructor|]; auto.
Qed.

Lemma keep_all {A} (l : list A) : keep (map (fun _ => true) l) l = l.
Proof. induction l as [|x l IH]; simpl; [done|]. by rewrite IH. Qed.

Lemma nth_nonneg (i : nat) (r : list (cell xreal)) :
  Forall nonneg_cell r -> nonneg_cell (nth i r (Num nan)).
Proof.
  intros Hr. revert i. induction Hr as [|c r Hc _ IH]; intros [|i]; simpl;
    auto.
Qed.

Lemma sequence_numbers (cs : list (cell xreal)) (xs : list xreal) :
  sequence (map as_number cs) = Ok xs ->
  Forall nonneg_cell cs -> Forall nonneg xs.
Proof.
  revert xs. induction cs as [|c cs IH]; simpl; intros xs Hs Hcs.
  - injection Hs as <-. constructor.
  - apply Forall_cons in Hcs as [Hc Hcs].
    inv_bind Hs. inv_bind Hs. injection Hs as <-.
    destruct c; [discriminate|]. injection Ha as <-.
    constructor; [done|]. by apply IH.
Qed.

Lemma column_sum_nonneg df (i : nat) (mask : list bool) (s : xreal) :
  nonneg_frame df ->
  series_sum (column_at i (select df mask)) = Ok s -> nonneg s.
Proof.
  unfold nonneg_frame, series_sum, column_at, select. cbn [rows].
  intros Hdf Hs. inv_bind Hs. injection Hs as <-.
  apply nansum_nonneg, (sequence_numbers _ _ Ha).
  apply Forall_forall. intros c Hc.
  apply list_elem_of_In, in_map_iff in Hc as (r & <- & Hr).
  apply nth_nonneg. pose proof (keep_Forall _ mask _ Hdf) as Hk.
  rewrite Forall_forall in Hk. by apply Hk, list_elem_of_In.
Qed.

Lemma weight_sum_nonneg df variable bin weight s :
  nonneg_frame df -> weight_sum df variable bin weight = Ok s -> nonneg s.
Proof.
  intros Hdf Hw. unfold weight_sum in Hw. inv_bind Hw. inv_bind Hw.
  unfold getattr in Ha0. cbn [columns select] in Ha0.
  destruct (position weight (columns df)) as [i|]; [|discriminate].
  injection Ha0 as <-.
  exact (column_sum_nonneg df i (eq_label a bin) s Hdf Hw).
Qed.

Lemma marginal_sum_nonneg df name m :
  nonneg_frame df ->
  (let! col := getitem df name in series_sum col) = Ok m -> nonneg m.
Proof.
  intros Hdf Hm. inv_bind Hm. unfold getitem in Ha.
  destruct (position name (columns df)) as [i|]; [|discriminate].
  injection Ha as <-.
  apply (column_sum_nonneg df i (map (fun _ => true) (rows df)) m Hdf).
  unfold select. rewrite keep_all. by destruct df.
Qed.

Lemma matching_count_nonneg df variable bin g :
  matching_count df variable bin = Ok g -> nonneg g.
Proof.
  unfold matching_count. intros Hg. inv_bind Hg. inv_bind Hg.
  injection Hg as <-. simpl. apply pos_INR.
Qed.

(** X18: when no weight of the survey frames and no marginal total is
    below zero, no entry of a returned comparison table is: each is
    missing or at least 0. *)
Theorem counts_nonnegative self mv t k r :
  nonneg_frame (person_pums self) -> nonneg_frame (household_pums self) ->
  nonneg_frame (marginals self) ->
  _comparison_dataframe CONTROLS self mv = Ok t ->
  od_get key_eqb k (t_rows t) = Some r ->
  Forall nonneg r.
Proof.
  intros Hp Hh Hm Hc Hr.
  destruct (comparison_row _ _ _ _ _ _ Hc Hr) as (r0 & Hrow & ->).
  destruct k as [v b]. simpl in Hrow.
  destruct (decide (v = "age" \/ v = "num_people" \/ v = "num_vehicles"))
    as [Hv|Hv].
  - destruct (row_of_known _ _ _ _ Hv Hrow) as (s & g & m & Hs & Hg & Hmm & ->).
    assert (nonneg_frame (survey_of self v)) as Hsv
      by (unfold survey_of; destruct (String.eqb v "age"); done).
    rewrite pad_full. repeat constructor.
    + apply (weight_sum_nonneg _ _ _ _ _ Hsv Hs).
    + apply (matching_count_nonneg _ _ _ _ Hg).
    + apply (marginal_sum_nonneg _ _ _ Hm Hmm).
  - destruct (row_of_other self v b r0) as (m & Hmm & ->); [tauto..|done|].
    rewrite pad_short. repeat constructor.
    apply (marginal_sum_nonneg _ _ _ Hm Hmm).
Qed.

End SignsOfCounts.

Section BareString.
Context {num : Type} `{Number num}.
Variable CONTROLS : gmap string (gset string).

(** X19: a bare string other than 'all' is iterated character by
    character, so a variable name passed without its list is answered with
    [KeyError] (CONTROLS having no one-character variable). *)
Theorem bare_string_request (self : Accuracy num) (s : string) :
  s <> "all" -> s <> "" ->
  (forall v, is_Some (CONTROLS !! v) -> String.length v <> 1) ->
  _comparison_dataframe CONTROLS self (Name s) = Raise KeyError.
Proof.
  intros Hall Hne Hkeys. destruct s as [|c s]; [done|].
  apply String.eqb_neq in Hall.
  unfold _comparison_dataframe, requested. cbn [is_all]. rewrite Hall.
  rewrite (requested_loop_KeyError CONTROLS _ _ (String c EmptyString));
    [reflexivity|simpl; left|].
  destruct (CONTROLS !! String c "") eqn:E; [|done].
  exfalso. apply (Hkeys (String c "")); [eauto|done].
Qed.

End BareString.

(** ** Further examples *)

Section MoreExamples.
Local Open Scope float_scope.

Lemma comparison_index_witness :
  NoDup (t_rows ex_table).*1 /\
  Forall (fun kv : key * list float => length kv.2 = 3%nat)
         (t_rows ex_table) /\
  forall v b, (v, b) ∈ (t_rows ex_table).*1 <->
    is_requested (Names ["all"]) v /\
    (exists s, ex_controls !! v = Some s /\ b ∈ s) /\
    (v, b) <> ("num_people", "count").
Proof.
  apply (comparison_index ex_controls ex_accuracy (Names ["all"]) ex_table).
  vm_compute. reflexivity.
Defined.

Lemma unknown_variable_witness :
  _comparison_dataframe ex_controls ex_accuracy (Names ["age"; "income"]) =
  Raise KeyError.
Proof.
  apply (unknown_variable ex_controls ex_accuracy (Names ["age"; "income"])
           "income").
  - reflexivity.
  - simpl. right. left.
  - vm_compute. reflexivity.
Defined.

Lemma count_bin_required_witness :
  _comparison_dataframe ex_controls_nocount ex_accuracy (Names ["all"]) =
  Raise ValueError.
Proof.
  apply (count_bin_required ex_controls_nocount ex_accuracy (Names ["all"])
           {["1"; "2"]}).
  - left. reflexivity.
  - left. reflexivity.
  - vm_compute. reflexivity.
  - apply not_elem_of_union.
    split; apply not_elem_of_singleton; discriminate.
Defined.

Lemma supported_row_present_witness :
  exists v b, (v, b) ∈ (t_rows ex_table).*1 /\
    (v = "age" \/ v = "num_people" \/ v = "num_vehicles").
Proof.
  apply (supported_row_present ex_controls ex_accuracy (Names ["all"])
           ex_table).
  - vm_compute. reflexivity.
  - discriminate.
Defined.

Lemma missing_data_column_witness :
  is_Some (position "age" (columns (survey_of ex_accuracy "age"))) /\
  is_Some (position (weight_of "age")
                    (columns (survey_of ex_accuracy "age"))) /\
  is_Some (position "age" (columns (generated_of ex_accuracy "age"))) /\
  is_Some (position ("age" ++ "_" ++ "0-17")
                    (columns (marginals ex_accuracy))).
Proof.
  apply (missing_data_column ex_controls ex_accuracy (Names ["all"]) ex_table
           "age" "0-17").
  - vm_compute. reflexivity.
  - simpl. right. left.
  - left. reflexivity.
Defined.

Lemma summary_rows_witness :
  NoDup (t_rows ex_summary).*1 /\
  (forall sp, sp ∈ (t_rows ex_summary).*1 <-> sp ∈ sub_areas ex_state_puma) /\
  (forall sp r, od_get key_eqb sp (t_rows ex_summary) = Some r ->
     exists accuracy bs,
       from_data_dir ex_read_csv sp.1 sp.2 "data" = Ok accuracy /\
       chosen_statistic ex_controls "mean_root_squared_error" accuracy
                        (Names ["age"]) false = Ok bs /\
       r = [bs.1; bs.2]).
Proof.
  apply (summary_rows ex_controls ex_read_csv ex_state_puma "data"
           (Names ["age"]) "mean_root_squared_error" false ex_summary).
  vm_compute. reflexivity.
Defined.

Lemma unreadable_file_witness :
  (forall t, run_pumas ex_controls ex_read_csv ex_state_puma_two "data"
                       (Names ["age"]) "mean_root_squared_error" false
             <> Ok t) /\
  run_pumas ex_controls ex_read_csv ex_state_puma_two "data" (Names ["age"])
            "mean_root_squared_error" false = Raise IOError.
Proof.
  split; [|vm_compute; reflexivity].
  apply (unreadable_file ex_controls ex_read_csv ex_state_puma_two "data"
           (Names ["age"]) "mean_root_squared_error" false
           ("20", "00602") "data/state_20_puma_00602_marginals.csv" IOError).
  - vm_compute. right. left.
  - vm_compute. right. right. left.
  - vm_compute. reflexivity.
Defined.

Lemma reads_only_listed_files_witness :
  run_pumas ex_controls ex_read_csv ex_state_puma "data" (Names ["all"])
            "mean_absolute_pct_error" false =
  run_pumas ex_controls ex_read_csv_more ex_state_puma "data" (Names ["all"])
            "mean_absolute_pct_error" false.
Proof.
  apply (reads_only_listed_files ex_controls ex_read_csv ex_read_csv_more
           ex_state_puma "data" (Names ["all"]) "mean_absolute_pct_error"
           false).
  intros sp path Hsp Hpath. vm_compute in Hsp.
  apply list_elem_of_singleton in Hsp. subst sp. vm_compute in Hpath.
  repeat (apply elem_of_cons in Hpath as [->|Hpath]; [reflexivity|]).
  by apply elem_of_nil in Hpath.
Defined.

Lemma bare_string_request_witness :
  _comparison_dataframe ex_controls ex_accuracy (Name "age") = Raise KeyError.
Proof.
  apply (bare_string_request ex_controls ex_accuracy "age").
  - discriminate.
  - discriminate.
  - intros v [s Hs]. unfold ex_controls in Hs.
    apply lookup_insert_Some in Hs as [[<- _]|[_ Hs]]; [discriminate|].
    apply lookup_insert_Some in Hs as [[<- _]|[_ Hs]]; [discriminate|].
    apply lookup_insert_Some in Hs as [[<- _]|[_ Hs]]; [discriminate|].
    by rewrite lookup_empty in Hs.
Defined.

End MoreExamples.

Section MoreExactExamples.
Local Open Scope R_scope.

Lemma mean_root_le_root_mean_witness :
  exists b1 s1 b2 s2,
    mean_root_squared_error_of (comparison_table ex_counts_two)
      = Ok (Fin b1, Fin s1) /\
    root_mean_squared_error_of (comparison_table ex_counts_two)
      = Ok (Fin b2, Fin s2) /\
    b1 <= b2 /\ s1 <= s2.
Proof. apply (mean_root_le_root_mean ex_counts_two). discriminate. Defined.

Lemma zero_rmse_iff_match_witness :
  exists b s,
    root_mean_squared_error_of (comparison_table ex_counts_two)
      = Ok (Fin b, Fin s) /\
    (b = 0 <->
     Forall (fun kc => survey_count kc.2 = marginal_count kc.2)
            ex_counts_two) /\
    (s = 0 <->
     Forall (fun kc => generated_count kc.2 = marginal_count kc.2)
            ex_counts_two).
Proof. apply (zero_rmse_iff_match ex_counts_two). discriminate. Defined.

Lemma mean_absolute_pct_error_bounds_witness :
  exists b s,
    mean_absolute_pct_error_of (comparison_table ex_counts_two)
      = Ok (Fin b, Fin s) /\
    0 <= b <= 2 /\ 0 <= s <= 2.
Proof.
  apply (mean_absolute_pct_error_bounds ex_counts_two); [discriminate|].
  repeat constructor; simpl; lra.
Defined.

Lemma statistics_ignore_row_order_witness :
  root_mean_squared_error_of (comparison_table ex_counts_two) =
    root_mean_squared_error_of (comparison_table (rev ex_counts_two)) /\
  mean_root_squared_error_of (comparison_table ex_counts_two) =
    mean_root_squared_error_of (comparison_table (rev ex_counts_two)) /\
  mean_absolute_pct_error_of (comparison_table ex_counts_two) =
    mean_absolute_pct_error_of (comparison_table (rev ex_counts_two)).
Proof.
  apply (statistics_ignore_row_order ["pums"; "gen"; "marginal"]
           (t_rows (comparison_table ex_counts_two))
           (t_rows (comparison_table (rev ex_counts_two)))).
  simpl. apply perm_swap.
Defined.

Lemma ex_table_exact_built :
  _comparison_dataframe ex_controls_age ex_accuracy_exact (Names ["age"]) =
  Ok ex_table_exact.
Proof. reflexivity. Qed.

Lemma counts_nonnegative_witness :
  Forall nonneg [Fin 2; Fin (INR 1); Fin 3].
Proof.
  apply (counts_nonnegative ex_controls_age ex_accuracy_exact (Names ["age"])
           ex_table_exact ("age", "0-17")).
  - repeat constructor. simpl. lra.
  - constructor.
  - repeat constructor. simpl. lra.
  - apply ex_table_exact_built.
  - reflexivity.
Defined.

End MoreExactExamples.
